(** * BitVault: the integrity and ledger core, embedded in Rocq

    A shallow embedding of the security core of the BitVault backend
    (models/Wallet.model.js, models/Transaction.model.js,
    services/crypto.service.js, services/wallet.service.js and
    services/transaction.service.js), followed by the properties the
    specification states about it.

    Conventions.
    - A JavaScript string is a [string] of bytes (its UTF-8 encoding); a
      Node [Buffer] is a [list byte].
    - A JavaScript [Number] that holds an amount of satoshis is a [Z]; the
      embedding is exact on the safe integers.
    - A [Date] is its number of milliseconds since the epoch, a [Z].
    - [null]/[undefined] are [None]. *)

From Stdlib Require Import ZArith String Ascii List Lia Bool.
From Stdlib.Strings Require Import Byte.
From stdpp Require Import base tactics option list strings pretty gmap.

Local Open Scope string_scope.
Local Open Scope list_scope.
Local Open Scope Z_scope.

(** ** Buffers and their hexadecimal rendering *)

#[global] Instance byte_eq_dec : EqDecision byte := Byte.byte_eq_dec.

Module Buffer.

Abbreviation t := (list byte).

Definition to_Z (b : byte) : Z := Z.of_N (Byte.to_N b).

Definition of_Z (z : Z) : byte :=
  match Byte.of_N (Z.to_N (z mod 256)) with
  | Some b => b
  | None => x00
  end.

(** [Buffer.from(s, 'utf8')] and [buf.toString('utf8')] on byte strings. *)
Definition of_string (s : string) : t := list_byte_of_string s.
Definition to_string (b : t) : string := string_of_list_byte b.

Definition hex_digit (n : Z) : ascii :=
  match n with
  | 0 => "0" | 1 => "1" | 2 => "2" | 3 => "3" | 4 => "4" | 5 => "5"
  | 6 => "6" | 7 => "7" | 8 => "8" | 9 => "9" | 10 => "a" | 11 => "b"
  | 12 => "c" | 13 => "d" | 14 => "e" | _ => "f"
  end%char.

(** The value of a hexadecimal digit; Node accepts both cases. *)
Definition hex_value (c : ascii) : option Z :=
  let n := Z.of_N (N_of_ascii c) in
  if (48 <=? n) && (n <=? 57) then Some (n - 48)
  else if (97 <=? n) && (n <=? 102) then Some (n - 87)
  else if (65 <=? n) && (n <=? 70) then Some (n - 55)
  else None.

(** [buf.toString('hex')]. *)
Fixpoint to_hex (b : t) : string :=
  match b with
  | [] => ""
  | x :: r =>
      String (hex_digit (to_Z x / 16))
        (String (hex_digit (to_Z x mod 16)) (to_hex r))
  end.

(** [Buffer.from(s, 'hex')]: pairs of digits are decoded until the first
    pair that is not hexadecimal; a trailing single character is dropped. *)
Fixpoint from_hex (s : string) : t :=
  match s with
  | String c1 (String c2 r) =>
      match hex_value c1, hex_value c2 with
      | Some h, Some l => of_Z (16 * h + l) :: from_hex r
      | _, _ => []
      end
  | _ => []
  end.

(** Big-endian reading of a buffer as a number. *)
Definition to_number (b : t) : Z :=
  fold_left (fun acc x => 256 * acc + to_Z x) b 0.

(** The [n] low bytes of [z], big-endian. *)
Fixpoint of_number (n : nat) (z : Z) : t :=
  match n with
  | O => []
  | S k => of_number k (z / 256) ++ [of_Z z]
  end.

End Buffer.

(** ** SHA-256 (FIPS 180-4), as [crypto.createHash('sha256')] computes it *)

Module SHA256.

Definition mask32 (x : Z) : Z := x mod 4294967296.
Definition add32 (x y : Z) : Z := mask32 (x + y).
Definition rotr (n x : Z) : Z :=
  mask32 (Z.lor (Z.shiftr x n) (Z.shiftl x (32 - n))).
Definition not32 (x : Z) : Z := Z.lxor x 4294967295.

Definition Ch (x y z : Z) := Z.lxor (Z.land x y) (Z.land (not32 x) z).
Definition Maj (x y z : Z) :=
  Z.lxor (Z.lxor (Z.land x y) (Z.land x z)) (Z.land y z).
Definition Sigma0 x := Z.lxor (Z.lxor (rotr 2 x) (rotr 13 x)) (rotr 22 x).
Definition Sigma1 x := Z.lxor (Z.lxor (rotr 6 x) (rotr 11 x)) (rotr 25 x).
Definition sigma0 x := Z.lxor (Z.lxor (rotr 7 x) (rotr 18 x)) (Z.shiftr x 3).
Definition sigma1 x := Z.lxor (Z.lxor (rotr 17 x) (rotr 19 x)) (Z.shiftr x 10).

(** The constants of FIPS 180-4: the round constants are the first 32 bits
    of the fractional parts of the cube roots of the first 64 primes, the
    initial hash value those of the square roots of the first 8 primes. *)
Definition is_prime (n : Z) : bool :=
  forallb (fun d => negb (n mod d =? 0))
          (map Z.of_nat (seq 2 (Z.to_nat n - 2))).

Definition primes (n : nat) : list Z :=
  firstn n (filter is_prime (map Z.of_nat (seq 2 400))).

Fixpoint cube_root (bits : nat) (x r : Z) : Z :=
  match bits with
  | O => r
  | S k =>
      let c := r + 2 ^ Z.of_nat k in
      if c * c * c <=? x then cube_root k x c else cube_root k x r
  end.

Definition frac_cbrt (p : Z) : Z := mask32 (cube_root 40 (p * 2 ^ 96) 0).
Definition frac_sqrt (p : Z) : Z := mask32 (Z.sqrt (p * 2 ^ 64)).

Definition K : list Z := Eval vm_compute in map frac_cbrt (primes 64).
Definition H0 : list Z := Eval vm_compute in map frac_sqrt (primes 8).

(** Padding: the bit 1, zeros up to 56 mod 64, the bit length on 8 bytes. *)
Definition pad (msg : list byte) : list byte :=
  let len := Z.of_nat (length msg) in
  let zeros := Z.to_nat ((55 - len) mod 64) in
  msg ++ [x80] ++ repeat x00 zeros ++ Buffer.of_number 8 (8 * len).

Fixpoint words (fuel : nat) (b : list byte) : list Z :=
  match fuel, b with
  | S f, b0 :: b1 :: b2 :: b3 :: r =>
      Buffer.to_number [b0; b1; b2; b3] :: words f r
  | _, _ => []
  end.

Fixpoint blocks (fuel : nat) (w : list Z) : list (list Z) :=
  match fuel with
  | O => []
  | S f =>
      match w with
      | [] => []
      | _ => firstn 16 w :: blocks f (skipn 16 w)
      end
  end.

(** The message schedule, kept newest first: [w] holds W(t-1), W(t-2), ... *)
Fixpoint schedule (n : nat) (w : list Z) : list Z :=
  match n with
  | O => w
  | S k =>
      let wt :=
        add32 (add32 (sigma1 (nth 1 w 0)) (nth 6 w 0))
              (add32 (sigma0 (nth 14 w 0)) (nth 15 w 0)) in
      schedule k (wt :: w)
  end.

Definition round (st : list Z) (kw : Z * Z) : list Z :=
  match st with
  | [a; b; c; d; e; f; g; h] =>
      let t1 := add32 (add32 (add32 h (Sigma1 e)) (add32 (Ch e f g) (fst kw)))
                      (snd kw) in
      let t2 := add32 (Sigma0 a) (Maj a b c) in
      [add32 t1 t2; a; b; c; add32 d t1; e; f; g]
  | _ => st
  end.

Definition compress (h : list Z) (block : list Z) : list Z :=
  let w := rev (schedule 48 (rev block)) in
  let st := fold_left round (combine K w) h in
  map (fun p => add32 (fst p) (snd p)) (combine h st).

Definition digest (msg : list byte) : list byte :=
  let p := pad msg in
  let ws := words (length p) p in
  let h := fold_left compress (blocks (length ws) ws) H0 in
  concat (map (Buffer.of_number 4) h).

(** [createHash('sha256').update(s).digest('hex')]. *)
Definition hex (s : string) : string :=
  Buffer.to_hex (digest (Buffer.of_string s)).

End SHA256.

Arguments SHA256.digest : simpl never.
Arguments SHA256.hex : simpl never.

(** Two different inputs with one digest. No such pair is known for
    SHA-256; tamper detection is stated for inputs that are not one. *)
Definition sha256_collision (a b : string) : Prop :=
  a <> b /\ SHA256.hex a = SHA256.hex b.

(** ** AES-256 (FIPS 197), the block cipher behind ['aes-256-gcm'] *)

Module AES.

(** Multiplication by x in GF(2^8) modulo x^8 + x^4 + x^3 + x + 1. *)
Definition xtime (a : Z) : Z :=
  let d := Z.shiftl a 1 in
  if Z.testbit a 7 then Z.lxor (Z.land d 255) 27 else d.

Fixpoint gmul_go (n : nat) (a b acc : Z) : Z :=
  match n with
  | O => acc
  | S k =>
      gmul_go k (xtime a) (Z.shiftr b 1)
        (if Z.testbit b 0 then Z.lxor acc a else acc)
  end.
Definition gmul (a b : Z) : Z := gmul_go 8 a b 0.

(** The inverse in GF(2^8) is the 254th power (0 is sent to 0). *)
Definition ginv (a : Z) : Z :=
  let a2 := gmul a a in
  let a4 := gmul a2 a2 in
  let a8 := gmul a4 a4 in
  let a16 := gmul a8 a8 in
  let a32 := gmul a16 a16 in
  let a64 := gmul a32 a32 in
  let a128 := gmul a64 a64 in
  gmul a128 (gmul a64 (gmul a32 (gmul a16 (gmul a8 (gmul a4 a2))))).

Definition rotl8 (x n : Z) : Z :=
  Z.land (Z.lor (Z.shiftl x n) (Z.shiftr x (8 - n))) 255.

Definition sbox_of (a : Z) : Z :=
  let s := ginv a in
  Z.lxor (Z.lxor (Z.lxor (Z.lxor (Z.lxor s (rotl8 s 1)) (rotl8 s 2))
                         (rotl8 s 3)) (rotl8 s 4)) 99.

Definition sbox_table : list Z :=
  Eval vm_compute in map (fun i => sbox_of (Z.of_nat i)) (seq 0 256).

Definition sbox (a : Z) : Z := nth (Z.to_nat a) sbox_table 0.

Definition xor_bytes (a b : list Z) : list Z :=
  map (fun p => Z.lxor (fst p) (snd p)) (combine a b).

(** Key expansion for a 32-byte key: 60 words, kept newest first. *)
Definition sub_word (w : list Z) : list Z := map sbox w.
Definition rot_word (w : list Z) : list Z :=
  match w with
  | a :: r => r ++ [a]
  | [] => []
  end.

Fixpoint expand (n : nat) (i : Z) (rcon : Z) (ws : list (list Z))
  : list (list Z) :=
  match n with
  | O => ws
  | S k =>
      let prev := nth 0 ws [] in
      let back := nth 7 ws [] in
      if i mod 8 =? 0 then
        let t := xor_bytes (sub_word (rot_word prev)) [rcon; 0; 0; 0] in
        expand k (i + 1) (xtime rcon) (xor_bytes back t :: ws)
      else if i mod 8 =? 4 then
        expand k (i + 1) rcon (xor_bytes back (sub_word prev) :: ws)
      else
        expand k (i + 1) rcon (xor_bytes back prev :: ws)
  end.

Fixpoint chunks (fuel : nat) (n : nat) (l : list Z) : list (list Z) :=
  match fuel with
  | O => []
  | S f =>
      match l with
      | [] => []
      | _ => firstn n l :: chunks f n (skipn n l)
      end
  end.

(** The fifteen round keys, sixteen bytes each. *)
Definition round_keys (key : list Z) : list (list Z) :=
  let w0 := rev (chunks 8 4 key) in
  let ws := rev (expand 52 8 1 w0) in
  chunks 15 16 (concat ws).

Definition sub_bytes (s : list Z) : list Z := map sbox s.

(** Row [r] of the column-major state moves [r] columns to the left. *)
Definition shift_rows (s : list Z) : list Z :=
  map (fun i => nth ((i + 4 * (i mod 4)) mod 16)%nat s 0) (seq 0 16).

Definition mix_column (c : list Z) : list Z :=
  match c with
  | [a0; a1; a2; a3] =>
      [ Z.lxor (Z.lxor (xtime a0) (Z.lxor (xtime a1) a1)) (Z.lxor a2 a3);
        Z.lxor (Z.lxor a0 (xtime a1)) (Z.lxor (Z.lxor (xtime a2) a2) a3);
        Z.lxor (Z.lxor a0 a1) (Z.lxor (xtime a2) (Z.lxor (xtime a3) a3));
        Z.lxor (Z.lxor (Z.lxor (xtime a0) a0) a1) (Z.lxor a2 (xtime a3)) ]
  | _ => c
  end.
Definition mix_columns (s : list Z) : list Z :=
  concat (map mix_column (chunks 4 4 s)).

Definition middle_round (s k : list Z) : list Z :=
  xor_bytes (mix_columns (shift_rows (sub_bytes s))) k.
Definition final_round (s k : list Z) : list Z :=
  xor_bytes (shift_rows (sub_bytes s)) k.

Definition encrypt_bytes (key block : list Z) : list Z :=
  match round_keys key with
  | k0 :: rest =>
      let s := xor_bytes block k0 in
      let s := fold_left middle_round (removelast rest) s in
      final_round s (List.last rest [])
  | [] => block
  end.

(** The cipher on a 128-bit block held as a number. *)
Definition encrypt (key : Buffer.t) (block : Z) : Z :=
  Buffer.to_number
    (map Buffer.of_Z
       (encrypt_bytes (map Buffer.to_Z key)
          (map Buffer.to_Z (Buffer.of_number 16 block)))).

End AES.

(** ** Galois/Counter Mode (NIST SP 800-38D) over a block cipher

    The mode is written over an arbitrary cipher [E] on 128-bit blocks, the
    way OpenSSL composes it; [aes_256_gcm_*] below fix [E] to AES-256. *)

Module GCM.

Definition bxor (a b : byte) : byte :=
  Buffer.of_Z (Z.lxor (Buffer.to_Z a) (Buffer.to_Z b)).

Definition xor_buffers (a b : Buffer.t) : Buffer.t :=
  map (fun p => bxor (fst p) (snd p)) (combine a b).

(** Multiplication in GF(2^128); the leftmost bit of a block is the
    coefficient of degree 0. *)
Definition R : Z := Z.shiftl 225 120.

Fixpoint mul_go (n : nat) (x v z : Z) : Z :=
  match n with
  | O => z
  | S k =>
      mul_go k x
        (if Z.testbit v 0 then Z.lxor (Z.shiftr v 1) R else Z.shiftr v 1)
        (if Z.testbit x (Z.of_nat k) then Z.lxor z v else z)
  end.
Definition mul (x y : Z) : Z := mul_go 128 x y 0.

Definition ghash (h : Z) (xs : list Z) : Z :=
  fold_left (fun y x => mul (Z.lxor y x) h) xs 0.

(** A buffer cut into 128-bit blocks, the last one filled with zeros. *)
Fixpoint blocks_of (fuel : nat) (b : Buffer.t) : list Z :=
  match fuel with
  | O => []
  | S f =>
      match b with
      | [] => []
      | _ =>
          let c := firstn 16 b in
          Buffer.to_number (c ++ repeat x00 (16 - length c))
            :: blocks_of f (skipn 16 b)
      end
  end.

Definition inc32 (cb : Z) : Z :=
  cb - cb mod 4294967296 + (cb mod 4294967296 + 1) mod 4294967296.

Section Mode.
Variable E : Z -> Z.

Fixpoint keystream (n : nat) (cb : Z) : Buffer.t :=
  match n with
  | O => []
  | S k => Buffer.of_number 16 (E cb) ++ keystream k (inc32 cb)
  end.

(** GCTR: the data xored with the encrypted counter blocks. *)
Definition gctr (icb : Z) (data : Buffer.t) : Buffer.t :=
  xor_buffers data (keystream (Nat.div (length data + 15) 16) icb).

Definition hash_key : Z := E 0.

Definition j0 (iv : Buffer.t) : Z :=
  if Nat.eqb (length iv) 12 then Buffer.to_number iv * 4294967296 + 1
  else ghash hash_key
         (blocks_of (length iv) iv ++ [8 * Z.of_nat (length iv)]).

(** The tag over an empty associated data and the ciphertext [c]. *)
Definition tag (iv c : Buffer.t) : Buffer.t :=
  let s := ghash hash_key
             (blocks_of (length c) c ++ [8 * Z.of_nat (length c)]) in
  Buffer.of_number 16 (Z.lxor s (E (j0 iv))).

Definition encrypt (iv p : Buffer.t) : Buffer.t * Buffer.t :=
  let c := gctr (inc32 (j0 iv)) p in
  (c, tag iv c).

(** Decryption releases the plaintext only if the tag verifies. *)
Definition decrypt (iv c t : Buffer.t) : option Buffer.t :=
  if decide (tag iv c = t) then Some (gctr (inc32 (j0 iv)) c) else None.
End Mode.

End GCM.

Definition aes_256_gcm_encrypt (key iv p : Buffer.t) : Buffer.t * Buffer.t :=
  GCM.encrypt (AES.encrypt key) iv p.
Definition aes_256_gcm_decrypt (key iv c t : Buffer.t) : option Buffer.t :=
  GCM.decrypt (AES.encrypt key) iv c t.

(** ** The pieces of the JavaScript runtime the models rely on *)

Module JS.

(** [a || b] on strings that may be undefined: the empty string is falsy. *)
Definition or_string (a b : option string) : option string :=
  match a with
  | Some s => if decide (s = "") then b else a
  | None => b
  end.

(** [s + v] where [v] may be undefined. *)
Definition concat_opt (s : string) (v : option string) : string :=
  s +:+ default "undefined" v.

Definition pad_left (width : nat) (s : string) : string :=
  string_of_list_ascii
    (repeat "0"%char (width - String.length s)) +:+ s.

(** [Date.prototype.toISOString] of a time value in milliseconds. *)
Definition toISOString (ms : Z) : string :=
  let days := ms / 86400000 in
  let rest := ms mod 86400000 in
  let z := days + 719468 in
  let era := z / 146097 in
  let doe := z - era * 146097 in
  let yoe := (doe - doe / 1460 + doe / 36524 - doe / 146096) / 365 in
  let doy := doe - (365 * yoe + yoe / 4 - yoe / 100) in
  let mp := (5 * doy + 2) / 153 in
  let d := doy - (153 * mp + 2) / 5 + 1 in
  let m := if mp <? 10 then mp + 3 else mp - 9 in
  let y := yoe + era * 400 + (if m <=? 2 then 1 else 0) in
  let year :=
    if (0 <=? y) && (y <=? 9999) then pad_left 4 (pretty y)
    else (if y <? 0 then "-" else "+") +:+ pad_left 6 (pretty (Z.abs y)) in
  year +:+ "-" +:+ pad_left 2 (pretty m) +:+ "-" +:+ pad_left 2 (pretty d)
    +:+ "T" +:+ pad_left 2 (pretty (rest / 3600000))
    +:+ ":" +:+ pad_left 2 (pretty (rest / 60000 mod 60))
    +:+ ":" +:+ pad_left 2 (pretty (rest / 1000 mod 60))
    +:+ "." +:+ pad_left 3 (pretty (rest mod 1000)) +:+ "Z".

(** [String.prototype.slice(0, n)]. *)
Definition slice_to (n : nat) (s : string) : string := String.substring 0 n s.

Definition is_space (c : ascii) : bool :=
  let n := Z.of_N (N_of_ascii c) in
  ((9 <=? n) && (n <=? 13)) || (n =? 32).

Fixpoint trim_start (s : string) : string :=
  match s with
  | String c r => if is_space c then trim_start r else s
  | EmptyString => s
  end.

(** [String.prototype.trim], on the white space of ASCII. *)
Definition trim (s : string) : string :=
  String.rev (trim_start (String.rev (trim_start s))).

End JS.

(** [JSON.stringify] on the values the models serialise. *)

Module JSON.

Definition escape_char (c : ascii) : string :=
  let n := Z.of_N (N_of_ascii c) in
  if n =? 34 then String "\" (String c "")
  else if n =? 92 then "\\"
  else if n =? 8 then "\b"
  else if n =? 12 then "\f"
  else if n =? 10 then "\n"
  else if n =? 13 then "\r"
  else if n =? 9 then "\t"
  else if n <? 32 then
    "\u00" +:+ String (Buffer.hex_digit (n / 16))
                 (String (Buffer.hex_digit (n mod 16)) "")
  else String c "".

Fixpoint escape (s : string) : string :=
  match s with
  | EmptyString => ""
  | String c r => escape_char c +:+ escape r
  end.

Definition quote : string := String (ascii_of_nat 34) "".

Definition str (s : string) : string := quote +:+ escape s +:+ quote.
Definition num (n : Z) : string := pretty n.
Definition str_or_null (o : option string) : string :=
  match o with
  | Some s => str s
  | None => "null"
  end.

Definition member (key value : string) : string := str key +:+ ":" +:+ value.

Fixpoint members (l : list (string * string)) : string :=
  match l with
  | [] => ""
  | [(k, v)] => member k v
  | (k, v) :: r => member k v +:+ "," +:+ members r
  end.

(** An object literal whose properties are all defined. *)
Definition obj (l : list (string * string)) : string :=
  "{" +:+ members l +:+ "}".

End JSON.

(** ** Configuration and identifiers *)

(** [process.env], read by the models and the services. *)
Record Env := {
  ENCRYPTION_KEY : option string;
  INTEGRITY_SECRET : option string;
  BITCOIN_NETWORK : option string
}.

Abbreviation ObjectId := N.
Abbreviation Date := Z.

Inductive StorageType := hot | cold.
Inductive Network := mainnet | testnet | regtest.
Inductive WalletStatus := active | frozen | archived.
Inductive TxType := send | receive | internal.
Inductive TxStatus := pending | confirmed | failed | cancelled.

#[global] Instance StorageType_eq_dec : EqDecision StorageType.
Proof. solve_decision. Defined.
#[global] Instance Network_eq_dec : EqDecision Network.
Proof. solve_decision. Defined.
#[global] Instance WalletStatus_eq_dec : EqDecision WalletStatus.
Proof. solve_decision. Defined.
#[global] Instance TxType_eq_dec : EqDecision TxType.
Proof. solve_decision. Defined.
#[global] Instance TxStatus_eq_dec : EqDecision TxStatus.
Proof. solve_decision. Defined.

Definition StorageType_string (s : StorageType) : string :=
  match s with hot => "hot" | cold => "cold" end.
Definition StorageType_parse (s : string) : option StorageType :=
  if decide (s = "hot") then Some hot
  else if decide (s = "cold") then Some cold else None.
Definition Network_string (n : Network) : string :=
  match n with mainnet => "mainnet" | testnet => "testnet" | regtest => "regtest" end.
Definition Network_parse (s : string) : option Network :=
  if decide (s = "mainnet") then Some mainnet
  else if decide (s = "testnet") then Some testnet
  else if decide (s = "regtest") then Some regtest else None.
Definition TxType_string (t : TxType) : string :=
  match t with send => "send" | receive => "receive" | internal => "internal" end.

(** ** models/Wallet.model.js *)

Module Wallet.

Record EncryptionMeta := {
  iv : option string;
  authTag : option string;
  algorithm : string
}.

(** A wallet document. The schema paths [icon], [metadata] and [tags] keep
    their defaults in every operation below and are left out. *)
Record t := {
  user : ObjectId;
  name : string;
  description : string;
  publicAddress : string;
  publicKey : string;
  storageType : StorageType;
  encryptedPrivateKey : option string;
  encryptionMeta : EncryptionMeta;
  balance : Z;
  pendingBalance : Z;
  network : Network;
  status : WalletStatus;
  color : string;
  transactionCount : Z;
  lastActivity : Date;
  integrityHash : string;
  createdAt : option Date;
  updatedAt : option Date
}.

Definition set_balance (w : t) (b : Z) : t :=
  {| user := user w; name := name w; description := description w;
     publicAddress := publicAddress w; publicKey := publicKey w;
     storageType := storageType w;
     encryptedPrivateKey := encryptedPrivateKey w;
     encryptionMeta := encryptionMeta w; balance := b;
     pendingBalance := pendingBalance w; network := network w;
     status := status w; color := color w;
     transactionCount := transactionCount w;
     lastActivity := lastActivity w; integrityHash := integrityHash w;
     createdAt := createdAt w; updatedAt := updatedAt w |}.

Definition set_integrityHash (w : t) (h : string) : t :=
  {| user := user w; name := name w; description := description w;
     publicAddress := publicAddress w; publicKey := publicKey w;
     storageType := storageType w;
     encryptedPrivateKey := encryptedPrivateKey w;
     encryptionMeta := encryptionMeta w; balance := balance w;
     pendingBalance := pendingBalance w; network := network w;
     status := status w; color := color w;
     transactionCount := transactionCount w;
     lastActivity := lastActivity w; integrityHash := h;
     createdAt := createdAt w; updatedAt := updatedAt w |}.

(** The assignments of [updateBalance] other than the balance itself. *)
Definition touch (w : t) (now : Date) : t :=
  {| user := user w; name := name w; description := description w;
     publicAddress := publicAddress w; publicKey := publicKey w;
     storageType := storageType w;
     encryptedPrivateKey := encryptedPrivateKey w;
     encryptionMeta := encryptionMeta w; balance := balance w;
     pendingBalance := pendingBalance w; network := network w;
     status := status w; color := color w;
     transactionCount := transactionCount w + 1;
     lastActivity := now; integrityHash := integrityHash w;
     createdAt := createdAt w; updatedAt := updatedAt w |}.

(** The timestamps Mongoose writes on every save. *)
Definition stamp (w : t) (now : Date) : t :=
  {| user := user w; name := name w; description := description w;
     publicAddress := publicAddress w; publicKey := publicKey w;
     storageType := storageType w;
     encryptedPrivateKey := encryptedPrivateKey w;
     encryptionMeta := encryptionMeta w; balance := balance w;
     pendingBalance := pendingBalance w; network := network w;
     status := status w; color := color w;
     transactionCount := transactionCount w;
     lastActivity := lastActivity w; integrityHash := integrityHash w;
     createdAt := Some (default now (createdAt w)); updatedAt := Some now |}.

Section Methods.
Variable env : Env.

(** The serialisation that is hashed; [now] is the clock, read only when
    the document has no [createdAt]. *)
Definition dataToHash (now : Date) (w : t) : string :=
  JSON.obj
    [ ("publicAddress", JSON.str (publicAddress w));
      ("publicKey", JSON.str (publicKey w));
      ("balance", JSON.num (balance w));
      ("storageType", JSON.str (StorageType_string (storageType w)));
      ("createdAt", JSON.str (JS.toISOString (default now (createdAt w)))) ].

(** The string handed to SHA-256: the serialisation, then the secret. *)
Definition hashInput (now : Date) (w : t) : string :=
  let secret := JS.or_string (INTEGRITY_SECRET env) (ENCRYPTION_KEY env) in
  JS.concat_opt (dataToHash now w) secret.

Definition generateIntegrityHash (now : Date) (w : t) : string :=
  SHA256.hex (hashInput now w).

Definition verifyIntegrity (now : Date) (w : t) : bool :=
  bool_decide (integrityHash w = generateIntegrityHash now w).

Definition isHotWallet (w : t) : bool := bool_decide (storageType w = hot).
Definition isColdWallet (w : t) : bool := bool_decide (storageType w = cold).
End Methods.

End Wallet.

(** ** models/Transaction.model.js *)

Module Transaction.

(** A transaction document; [rawTransaction], [metadata] and
    [errorMessage] keep their defaults and are left out. *)
Record t := {
  wallet : ObjectId;
  user : ObjectId;
  txId : string;
  type : TxType;
  status : TxStatus;
  amount : Z;
  fee : Z;
  fromAddress : string;
  toAddress : string;
  balanceAfter : Z;
  confirmations : Z;
  blockNumber : option Z;
  blockHash : option string;
  memo : string;
  signingMethod : StorageType;
  signature : option string;
  integrityHash : string;
  previousTxHash : option string;
  ipAddress : option string;
  userAgent : option string;
  confirmedAt : option Date;
  createdAt : option Date;
  updatedAt : option Date
}.

(** What the pre-save hook and the timestamps write on a new document. *)
Definition stamp (x : t) (now : Date) (h : string) : t :=
  {| wallet := wallet x; user := user x; txId := txId x; type := type x;
     status := status x; amount := amount x; fee := fee x;
     fromAddress := fromAddress x; toAddress := toAddress x;
     balanceAfter := balanceAfter x; confirmations := confirmations x;
     blockNumber := blockNumber x; blockHash := blockHash x;
     memo := memo x; signingMethod := signingMethod x;
     signature := signature x; integrityHash := h;
     previousTxHash := previousTxHash x; ipAddress := ipAddress x;
     userAgent := userAgent x; confirmedAt := confirmedAt x;
     createdAt := Some (default now (createdAt x)); updatedAt := Some now |}.

Section Methods.
Variable env : Env.

Definition dataToHash (now : Date) (x : t) : string :=
  JSON.obj
    [ ("txId", JSON.str (txId x));
      ("type", JSON.str (TxType_string (type x)));
      ("amount", JSON.num (amount x));
      ("fee", JSON.num (fee x));
      ("fromAddress", JSON.str (fromAddress x));
      ("toAddress", JSON.str (toAddress x));
      ("balanceAfter", JSON.num (balanceAfter x));
      ("previousTxHash", JSON.str_or_null (previousTxHash x));
      ("createdAt", JSON.str (JS.toISOString (default now (createdAt x)))) ].

Definition hashInput (now : Date) (x : t) : string :=
  JS.concat_opt (dataToHash now x) (ENCRYPTION_KEY env).

Definition generateIntegrityHash (now : Date) (x : t) : string :=
  SHA256.hex (hashInput now x).

Definition verifyIntegrity (now : Date) (x : t) : bool :=
  bool_decide (integrityHash x = generateIntegrityHash now x).
End Methods.

End Transaction.

(** ** Errors and results *)

(** The exceptions the services raise, one constructor per message. *)
Inductive Error :=
  | SenderWalletNotFound          (* 'Sender wallet not found' *)
  | InvalidRecipientAddress       (* 'Invalid recipient address' *)
  | CannotSendToSameAddress       (* 'Cannot send to the same address' *)
  | InsufficientBalance (available required : Z)
  | PrivateKeyRequired            (* 'Private key required for cold wallet transaction' *)
  | InvalidPrivateKey             (* 'Invalid private key for this wallet' *)
  | EncryptionKeyNotConfigured    (* 'ENCRYPTION_KEY not configured' *)
  | AuthenticationFailure         (* the GCM tag does not verify *)
  | TypeError (what : string)     (* thrown by the key and signature library *)
  | KeyGenerationFailed (cause : Error)
  | KeyDerivationFailed (cause : Error)
  | EncryptionFailed (cause : Error)
  | DecryptionFailed (cause : Error)
  | TransactionSigningFailed (cause : Error)
  | WalletCreationFailed (cause : Error)
  | WalletNotFound                (* 'Wallet not found' *)
  | BalanceTooLow                 (* updateBalance: 'Insufficient balance' *)
  | ValidationError (path : string)
  | DuplicateKey (path : string)
  | StorageFailure.

Inductive Result (A : Type) :=
  | Ok (a : A)
  | Throw (e : Error).
Arguments Ok {A} a.
Arguments Throw {A} e.

#[global] Instance Result_ret : MRet Result := @Ok.
#[global] Instance Result_bind : MBind Result := fun A B k r =>
  match r with
  | Ok a => k a
  | Throw e => Throw e
  end.

(** [try { body } catch (error) { throw new Error(wrap(error)) }]. *)
Definition rethrow {A} (wrap : Error -> Error) (r : Result A) : Result A :=
  match r with
  | Ok a => Ok a
  | Throw e => Throw (wrap e)
  end.

(** [try { body } catch (error) { return false }]. *)
Definition or_false (r : Result bool) : bool :=
  match r with
  | Ok b => b
  | Throw _ => false
  end.

(** ** The elliptic-curve library (tiny-secp256k1 behind ecpair)

    The repository signs with ECDSA over secp256k1. The curve is kept as an
    interface: a group of points with a generator of order [order]. *)

Class Curve := {
  point : Type;
  point_eq_dec :: EqDecision point;
  infinity : point;
  padd : point -> point -> point;
  pneg : point -> point;
  G : point;
  order : Z;
  (** The affine x coordinate of a finite point. *)
  x_coord : point -> Z;
  (** The 33-byte compressed encoding and its decoding ([isPoint]). *)
  encode_point : point -> Buffer.t;
  decode_point : Buffer.t -> option point;
  (** The candidates of RFC 6979 for the nonce, in the order they are tried. *)
  rfc6979 : Z -> Z -> nat -> Z
}.

(** The library redraws a nonce or a key until one is acceptable; the
    embedding follows such a loop for [retry_bound] rounds. On secp256k1 a
    round fails with probability below 2^-127. *)
Definition retry_bound : nat := 64.

Module ECDSA.
Section WithCurve.
Context `{Curve}.

(** Scalar multiplication by doubling and adding. *)
Definition smul (k : Z) (P : point) : point :=
  match k with
  | Zpos p => Pos.iter_op padd p P
  | _ => infinity
  end.

(** [isPrivate]: 32 bytes that read as a scalar in [1, order). *)
Definition isPrivate (d : Buffer.t) : bool :=
  Nat.eqb (length d) 32
  && (0 <? Buffer.to_number d) && (Buffer.to_number d <? order).

Definition isScalar (h : Buffer.t) : bool := Nat.eqb (length h) 32.

(** [isSignature]: 64 bytes, both halves below the order. *)
Definition isSignature (sig : Buffer.t) : bool :=
  Nat.eqb (length sig) 64
  && (Buffer.to_number (firstn 32 sig) <? order)
  && (Buffer.to_number (skipn 32 sig) <? order).

(** [checkSig]: the signature a nonce leads to, if it leads to one. *)
Definition checkSig (d e k : Z) : option (Z * Z) :=
  let Q := smul k G in
  if decide (Q = infinity) then None
  else
    let r := x_coord Q mod order in
    if r =? 0 then None
    else
      let s := (Z.invmod k order * (e + d * r)) mod order in
      if s =? 0 then None else Some (r, s).

(** [deterministicGenerateK]: the first candidate that is a private
    scalar and passes [checkSig]. *)
Fixpoint generateK (d e : Z) (fuel i : nat) : option (Z * Z) :=
  match fuel with
  | O => None
  | S f =>
      let k := rfc6979 d e i in
      if (0 <? k) && (k <? order) then
        match checkSig d e k with
        | Some rs => Some rs
        | None => generateK d e f (S i)
        end
      else generateK d e f (S i)
  end.

(** [ecc.sign(hash, d)]; low S values are enforced. *)
Definition sign (hash d : Buffer.t) : Result Buffer.t :=
  if negb (isScalar hash) then Throw (TypeError "Expected Hash")
  else if negb (isPrivate d) then Throw (TypeError "Expected Private")
  else
    match generateK (Buffer.to_number d) (Buffer.to_number hash)
            retry_bound 0 with
    | None => Throw (TypeError "No nonce")
    | Some (r, s) =>
        let s := if order / 2 <? s then order - s else s in
        Ok (Buffer.of_number 32 r ++ Buffer.of_number 32 s)
    end.

(** [ecc.verify(hash, Q, signature)] with [strict] unset. *)
Definition verify (hash q sig : Buffer.t) : Result bool :=
  if negb (isScalar hash) then Throw (TypeError "Expected Hash")
  else
    match decode_point q with
    | None => Throw (TypeError "Expected Point")
    | Some Q =>
        if negb (isSignature sig) then Throw (TypeError "Expected Signature")
        else
          let r := Buffer.to_number (firstn 32 sig) in
          let s := Buffer.to_number (skipn 32 sig) in
          let e := Buffer.to_number hash in
          if r <=? 0 then Ok false
          else if s <=? 0 then Ok false
          else
            let sInv := Z.invmod s order in
            let u1 := (e * sInv) mod order in
            let u2 := (r * sInv) mod order in
            let R := padd (smul u1 G) (smul u2 Q) in
            if decide (R = infinity) then Ok false
            else Ok (x_coord R mod order =? r)
    end.
End WithCurve.
End ECDSA.

(** The laws of the curve that the properties of signatures rest on: the
    points are an abelian group, the generator has prime order below 2^256,
    a point and its opposite share their x coordinate, and the compressed
    encoding of a finite point decodes to it. All hold of secp256k1. *)
Class CurveLaws `{Curve} : Prop := {
  padd_assoc : forall P Q R : point, padd P (padd Q R) = padd (padd P Q) R;
  padd_comm : forall P Q : point, padd P Q = padd Q P;
  padd_infinity : forall P : point, padd infinity P = P;
  padd_pneg : forall P : point, padd P (pneg P) = infinity;
  order_prime : Z.prime order;
  order_bound : order < 2 ^ 256;
  G_finite : G <> infinity;
  G_order : ECDSA.smul order G = infinity;
  x_coord_pneg : forall P : point, x_coord (pneg P) = x_coord P;
  decode_encode :
    forall P : point, P <> infinity -> decode_point (encode_point P) = Some P
}.

(** The [ECPair] objects of the ecpair package. *)
Module ECPair.
Section WithCurve.
Context `{Curve}.

Record t := {
  privateKey : option Buffer.t;
  publicKey : Buffer.t
}.

Definition fromPrivateKey (d : Buffer.t) : Result t :=
  if ECDSA.isPrivate d then
    Ok {| privateKey := Some d;
          publicKey := encode_point (ECDSA.smul (Buffer.to_number d) G) |}
  else Throw (TypeError "Private key not in range [1, n)").

Definition fromPublicKey (q : Buffer.t) : Result t :=
  match decode_point q with
  | Some _ => Ok {| privateKey := None; publicKey := q |}
  | None => Throw (TypeError "Expected Point")
  end.

Definition sign (kp : t) (hash : Buffer.t) : Result Buffer.t :=
  match privateKey kp with
  | Some d => ECDSA.sign hash d
  | None => Throw (TypeError "Missing private key")
  end.

Definition verify (kp : t) (hash sig : Buffer.t) : Result bool :=
  ECDSA.verify hash (publicKey kp) sig.
End WithCurve.
End ECPair.

(** ** The address library (bitcoinjs-lib)

    The encodings of addresses and keys are an interface too. The library
    knows two networks here, [bitcoin.networks.bitcoin] and
    [bitcoin.networks.testnet]. *)

Class AddressCodec := {
  (** [payments.p2pkh({ pubkey, network }).address]. *)
  p2pkh : Network -> Buffer.t -> string;
  (** Whether [address.toOutputScript(address, network)] returns. *)
  toOutputScript_ok : Network -> string -> bool;
  (** [keyPair.toWIF()]. *)
  toWIF : Network -> Buffer.t -> string
}.

(** ** The store, the sources of effects, and the monad of the services *)

(** What the outside world supplies during a call: the draws of
    [crypto.randomBytes] and [Math.random], the readings of the clock, and
    whether the store refuses a write (a lost connection, a full disk). *)
Record Oracle := {
  random : nat -> Z;
  clock : nat -> Date;
  refuses : nat -> bool
}.

(** The two collections, and how much of the oracle has been consumed. *)
Record World := {
  wallets : gmap ObjectId Wallet.t;
  transactions : list Transaction.t;
  draws : nat;
  ticks : nat;
  writes : nat
}.

(** A service call runs from a world to a result and the world it leaves
    behind; an exception leaves the world as it was when it was thrown. *)
Definition M (A : Type) : Type := World -> Result A * World.

#[global] Instance M_ret : MRet M := fun A a w => (Ok a, w).
#[global] Instance M_bind : MBind M := fun A B k m w =>
  match m w with
  | (Ok a, w') => k a w'
  | (Throw e, w') => (Throw e, w')
  end.

Definition throw {A} (e : Error) : M A := fun w => (Throw e, w).
Definition getWorld : M World := fun w => (Ok w, w).
Definition putWorld (w : World) : M unit := fun _ => (Ok tt, w).
Definition lift {A} (r : Result A) : M A := fun w => (r, w).

(** [try { body } catch (error) { throw new Error(wrap(error)) }]. *)
Definition rethrowM {A} (wrap : Error -> Error) (m : M A) : M A := fun w =>
  match m w with
  | (Ok a, w') => (Ok a, w')
  | (Throw e, w') => (Throw (wrap e), w')
  end.

(** The outcome of running [m] from [w] satisfies [Q]. *)
Definition wp {A} (m : M A) (w : World) (Q : Result A -> World -> Prop) : Prop :=
  Q (fst (m w)) (snd (m w)).

(** Two worlds with the same documents. *)
Definition same_store (w w' : World) : Prop :=
  wallets w' = wallets w /\ transactions w' = transactions w.

(** The unique indexes of the two schemas. *)
Definition unique_addresses (ws : gmap ObjectId Wallet.t) : Prop :=
  forall i j x y,
    ws !! i = Some x -> ws !! j = Some y ->
    Wallet.publicAddress x = Wallet.publicAddress y -> i = j.

Definition unique_txIds (ts : list Transaction.t) : Prop :=
  NoDup (Transaction.txId <$> ts).

Definition set_wallets (w : World) (ws : gmap ObjectId Wallet.t) : World :=
  {| wallets := ws; transactions := transactions w; draws := draws w;
     ticks := ticks w; writes := writes w |}.
Definition set_transactions (w : World) (ts : list Transaction.t) : World :=
  {| wallets := wallets w; transactions := ts; draws := draws w;
     ticks := ticks w; writes := writes w |}.

Section Effects.
Variable oracle : Oracle.

(** [crypto.randomBytes(n)]. *)
Definition randomBytes (n : nat) : M Buffer.t := fun w =>
  (Ok (Buffer.of_number n (random oracle (draws w))),
   {| wallets := wallets w; transactions := transactions w;
      draws := S (draws w); ticks := ticks w; writes := writes w |}).

(** [Math.floor(Math.random() * range)]. *)
Definition randomBelow (range : Z) : M Z := fun w =>
  (Ok (random oracle (draws w) mod range),
   {| wallets := wallets w; transactions := transactions w;
      draws := S (draws w); ticks := ticks w; writes := writes w |}).

(** [new Date()] and [Date.now()]. *)
Definition now : M Date := fun w =>
  (Ok (clock oracle (ticks w)),
   {| wallets := wallets w; transactions := transactions w;
      draws := draws w; ticks := S (ticks w); writes := writes w |}).

(** The store accepts or refuses the next write. *)
Definition commit : M unit := fun w =>
  let w' := {| wallets := wallets w; transactions := transactions w;
               draws := draws w; ticks := ticks w; writes := S (writes w) |} in
  if refuses oracle (writes w) then (Throw StorageFailure, w') else (Ok tt, w').
End Effects.

(** ** services/crypto.service.js *)

Module CryptoService.

Record KeyPair := {
  privateKey : string;
  privateKeyWIF : string;
  publicKey : string;
  address : string;
  network : string
}.

Record Derived `{Curve} := {
  derived_publicKey : string;
  derived_address : string;
  derived_keyPair : ECPair.t
}.

Record Encrypted := {
  encryptedData : string;
  iv : string;
  authTag : string
}.

(** The object [createTransaction] signs. *)
Record TransactionData := {
  td_txId : string;
  td_fromAddress : string;
  td_toAddress : string;
  td_amount : Z;
  td_fee : Z;
  td_timestamp : Z;
  td_previousTxHash : option string
}.

Definition stringify (d : TransactionData) : string :=
  JSON.obj
    [ ("txId", JSON.str (td_txId d));
      ("fromAddress", JSON.str (td_fromAddress d));
      ("toAddress", JSON.str (td_toAddress d));
      ("amount", JSON.num (td_amount d));
      ("fee", JSON.num (td_fee d));
      ("timestamp", JSON.num (td_timestamp d));
      ("previousTxHash", JSON.str_or_null (td_previousTxHash d)) ].

Record Signed := {
  signature : string;
  txHash : string;
  signed_publicKey : string
}.

Definition algorithm : string := "aes-256-gcm".
Definition keyLength : nat := 32.
Definition ivLength : nat := 16.
Definition authTagLength : nat := 16.

Section Service.
Context `{Curve} `{AddressCodec}.
Variable env : Env.
Variable oracle : Oracle.

Definition networkType : string :=
  default "testnet" (JS.or_string (BITCOIN_NETWORK env) (Some "testnet")).

Definition getNetwork : Network :=
  if decide (networkType = "mainnet") then mainnet else testnet.

(** [ECPair.makeRandom]: 32 random bytes, drawn again until they are a
    private scalar. *)
Fixpoint makeRandom (fuel : nat) : M ECPair.t :=
  match fuel with
  | O => throw (TypeError "No private key")
  | S f =>
      d ← randomBytes oracle 32;
      if ECDSA.isPrivate d then lift (ECPair.fromPrivateKey d)
      else makeRandom f
  end.

Definition generateKeyPair : M KeyPair :=
  rethrowM KeyGenerationFailed
    (keyPair ← makeRandom retry_bound;
     d ← lift (match ECPair.privateKey keyPair with
               | Some d => Ok d
               | None => Throw (TypeError "Missing private key")
               end);
     mret {| privateKey := Buffer.to_hex d;
             privateKeyWIF := toWIF getNetwork d;
             publicKey := Buffer.to_hex (ECPair.publicKey keyPair);
             address := p2pkh getNetwork (ECPair.publicKey keyPair);
             network := networkType |}).

Definition deriveKeyPair (privateKeyHex : string) : Result Derived :=
  rethrow KeyDerivationFailed
    (keyPair ← ECPair.fromPrivateKey (Buffer.from_hex privateKeyHex);
     mret {| derived_publicKey := Buffer.to_hex (ECPair.publicKey keyPair);
             derived_address := p2pkh getNetwork (ECPair.publicKey keyPair);
             derived_keyPair := keyPair |}).

Definition validateKeyPair (privateKeyHex publicAddress : string) : bool :=
  or_false
    (derived ← deriveKeyPair privateKeyHex;
     mret (bool_decide (derived_address derived = publicAddress))).

(** The AES key is the SHA-256 digest of the configured secret. *)
Definition getEncryptionKey : Result Buffer.t :=
  match ENCRYPTION_KEY env with
  | None => Throw EncryptionKeyNotConfigured
  | Some envKey =>
      if decide (envKey = "") then Throw EncryptionKeyNotConfigured
      else Ok (SHA256.digest (Buffer.of_string envKey))
  end.

Definition encryptPrivateKey (privateKey : string) : M Encrypted :=
  rethrowM EncryptionFailed
    (key ← lift getEncryptionKey;
     iv ← randomBytes oracle ivLength;
     let '(encrypted, authTag) :=
       aes_256_gcm_encrypt key iv (Buffer.of_string privateKey) in
     mret {| encryptedData := Buffer.to_hex encrypted;
             iv := Buffer.to_hex iv;
             authTag := Buffer.to_hex authTag |}).

(** The three arguments come from a stored wallet and may be null. *)
Definition decryptPrivateKey (encryptedData ivHex authTagHex : option string)
  : Result string :=
  rethrow DecryptionFailed
    (key ← getEncryptionKey;
     match ivHex, authTagHex, encryptedData with
     | Some ivHex, Some authTagHex, Some encryptedData =>
         let iv := Buffer.from_hex ivHex in
         let authTag := Buffer.from_hex authTagHex in
         if Nat.eqb (length iv) 0 then
           Throw (TypeError "Invalid initialization vector")
         else if negb (Nat.eqb (length authTag) authTagLength) then
           Throw (TypeError "Invalid authentication tag length")
         else
           match aes_256_gcm_decrypt key iv
                   (Buffer.from_hex encryptedData) authTag with
           | Some decrypted => Ok (Buffer.to_string decrypted)
           | None => Throw AuthenticationFailure
           end
     | _, _, _ => Throw (TypeError "The argument must be a string")
     end).

Definition signTransaction (privateKeyHex : string)
    (transactionData : TransactionData) : Result Signed :=
  rethrow TransactionSigningFailed
    (keyPair ← ECPair.fromPrivateKey (Buffer.from_hex privateKeyHex);
     let txHash := SHA256.digest (Buffer.of_string (stringify transactionData)) in
     signature ← ECPair.sign keyPair txHash;
     mret {| signature := Buffer.to_hex signature;
             txHash := Buffer.to_hex txHash;
             signed_publicKey := Buffer.to_hex (ECPair.publicKey keyPair) |}).

Definition verifySignature (publicKeyHex signatureHex : string)
    (transactionData : TransactionData) : bool :=
  or_false
    (keyPair ← ECPair.fromPublicKey (Buffer.from_hex publicKeyHex);
     let txHash := SHA256.digest (Buffer.of_string (stringify transactionData)) in
     ECPair.verify keyPair txHash (Buffer.from_hex signatureHex)).

(** [generateHash] on a string. *)
Definition generateHash (data : string) : string :=
  SHA256.hex (JS.concat_opt data (ENCRYPTION_KEY env)).

Definition verifyHash (data expectedHash : string) : bool :=
  bool_decide (generateHash data = expectedHash).

Definition generateRandomBytes (length : nat) : M string :=
  b ← randomBytes oracle length; mret (Buffer.to_hex b).

Definition validateAddress (address : string) : bool :=
  toOutputScript_ok getNetwork address.
End Service.

End CryptoService.

(** ** The Mongoose models over the store *)

Definition Date_lt (a b : option Date) : bool :=
  match a, b with
  | Some x, Some y => x <? y
  | None, Some _ => true
  | _, None => false
  end.

Module TransactionModel.
Section Statics.
Variable env : Env.
Variable oracle : Oracle.

(** [generateTxId]: 32 random bytes in hexadecimal. *)
Definition generateTxId : M string :=
  b ← randomBytes oracle 32; mret (Buffer.to_hex b).

(** The most recent of a list of transactions; of several with the
    latest [createdAt], the one stored first. *)
Fixpoint latest (best : option Transaction.t) (l : list Transaction.t)
  : option Transaction.t :=
  match l with
  | [] => best
  | x :: r =>
      match best with
      | None => latest (Some x) r
      | Some b =>
          if Date_lt (Transaction.createdAt b) (Transaction.createdAt x)
          then latest (Some x) r else latest best r
      end
  end.

Definition of_wallet (walletId : ObjectId) (l : list Transaction.t)
  : list Transaction.t :=
  filter (fun x => Transaction.wallet x = walletId) l.

(** [generateChainHash]: the integrity hash of the wallet's last
    transaction, or null. *)
Definition generateChainHash (walletId : ObjectId) : M (option string) :=
  w ← getWorld;
  mret (Transaction.integrityHash
          <$> latest None (of_wallet walletId (transactions w))).

(** The validators of the schema, on the paths a document can violate. *)
Definition validate (x : Transaction.t) : Result unit :=
  if decide (Transaction.txId x = "") then Throw (ValidationError "txId")
  else if Transaction.amount x <? 1 then Throw (ValidationError "amount")
  else if Transaction.fee x <? 0 then Throw (ValidationError "fee")
  else if decide (Transaction.fromAddress x = "") then
    Throw (ValidationError "fromAddress")
  else if decide (Transaction.toAddress x = "") then
    Throw (ValidationError "toAddress")
  else if Transaction.confirmations x <? 0 then
    Throw (ValidationError "confirmations")
  else if (500 <? String.length (Transaction.memo x))%nat then
    Throw (ValidationError "memo")
  else Ok tt.

Definition set_memo (x : Transaction.t) (m : string) : Transaction.t :=
  {| Transaction.wallet := Transaction.wallet x;
     Transaction.user := Transaction.user x;
     Transaction.txId := Transaction.txId x;
     Transaction.type := Transaction.type x;
     Transaction.status := Transaction.status x;
     Transaction.amount := Transaction.amount x;
     Transaction.fee := Transaction.fee x;
     Transaction.fromAddress := Transaction.fromAddress x;
     Transaction.toAddress := Transaction.toAddress x;
     Transaction.balanceAfter := Transaction.balanceAfter x;
     Transaction.confirmations := Transaction.confirmations x;
     Transaction.blockNumber := Transaction.blockNumber x;
     Transaction.blockHash := Transaction.blockHash x;
     Transaction.memo := m;
     Transaction.signingMethod := Transaction.signingMethod x;
     Transaction.signature := Transaction.signature x;
     Transaction.integrityHash := Transaction.integrityHash x;
     Transaction.previousTxHash := Transaction.previousTxHash x;
     Transaction.ipAddress := Transaction.ipAddress x;
     Transaction.userAgent := Transaction.userAgent x;
     Transaction.confirmedAt := Transaction.confirmedAt x;
     Transaction.createdAt := Transaction.createdAt x;
     Transaction.updatedAt := Transaction.updatedAt x |}.

(** [Transaction.create(doc)]: the setters, the validators, the
    timestamps, the pre-save hook that sets the integrity hash of a new
    document, then the insertion under the unique index on [txId]. *)
Definition create (doc : Transaction.t) : M Transaction.t :=
  let doc := set_memo doc (JS.trim (Transaction.memo doc)) in
  _ ← lift (validate doc);
  t ← now oracle;
  let saved :=
    Transaction.stamp doc t (Transaction.generateIntegrityHash env t doc) in
  _ ← commit oracle;
  w ← getWorld;
  if bool_decide (Transaction.txId saved ∈ Transaction.txId <$> transactions w)
  then throw (DuplicateKey "txId")
  else
    _ ← putWorld (set_transactions w (transactions w ++ [saved]));
    mret saved.

(** [verifyIntegrity] reads the clock only for a document that has no
    [createdAt]. *)
Definition verifyIntegrity (x : Transaction.t) : M bool :=
  match Transaction.createdAt x with
  | Some t => mret (Transaction.verifyIntegrity env t x)
  | None => t ← now oracle; mret (Transaction.verifyIntegrity env t x)
  end.

(** [find({ wallet }).sort({ createdAt: 1 })]: a stable insertion sort. *)
Fixpoint insert_sorted (x : Transaction.t) (l : list Transaction.t)
  : list Transaction.t :=
  match l with
  | [] => [x]
  | y :: r =>
      if Date_lt (Transaction.createdAt x) (Transaction.createdAt y)
      then x :: l else y :: insert_sorted x r
  end.

Definition sort_by_createdAt (l : list Transaction.t) : list Transaction.t :=
  fold_left (fun acc x => insert_sorted x acc) l [].

Definition find_sorted (walletId : ObjectId) : M (list Transaction.t) :=
  w ← getWorld;
  mret (sort_by_createdAt (of_wallet walletId (transactions w))).
End Statics.
End TransactionModel.

Module WalletModel.

(** The object handed to [Wallet.create]. *)
Record Data := {
  d_user : ObjectId;
  d_name : string;
  d_description : string;
  d_publicAddress : string;
  d_publicKey : string;
  d_storageType : string;
  d_network : string;
  d_color : string;
  d_balance : Z;
  d_encryptedPrivateKey : option string;
  d_encryptionMeta : option Wallet.EncryptionMeta
}.

Section Statics.
Variable env : Env.
Variable oracle : Oracle.

Definition findById (walletId : ObjectId) : M (option Wallet.t) :=
  w ← getWorld; mret (wallets w !! walletId).

(** [findOne({ _id, user, status: 'active' })]. *)
Definition findActive (walletId userId : ObjectId) : M (option Wallet.t) :=
  w ← getWorld;
  mret (match wallets w !! walletId with
        | Some x =>
            if bool_decide (Wallet.user x = userId /\ Wallet.status x = active)
            then Some x else None
        | None => None
        end).

(** [findOne({ _id, user })]. *)
Definition findOwned (walletId userId : ObjectId) : M (option Wallet.t) :=
  w ← getWorld;
  mret (match wallets w !! walletId with
        | Some x => if bool_decide (Wallet.user x = userId) then Some x else None
        | None => None
        end).

(** [findOne({ publicAddress })], with the document's [_id]. *)
Definition findByAddress (address : string) : M (option (ObjectId * Wallet.t)) :=
  w ← getWorld;
  mret (List.find
          (fun p => bool_decide (Wallet.publicAddress (snd p) = address))
          (map_to_list (wallets w))).

(** The validators that run on every save. *)
Definition validate (x : Wallet.t) : Result unit :=
  if decide (Wallet.name x = "") then Throw (ValidationError "name")
  else if (100 <? String.length (Wallet.name x))%nat then
    Throw (ValidationError "name")
  else if (500 <? String.length (Wallet.description x))%nat then
    Throw (ValidationError "description")
  else if decide (Wallet.publicAddress x = "") then
    Throw (ValidationError "publicAddress")
  else if decide (Wallet.publicKey x = "") then
    Throw (ValidationError "publicKey")
  else if Wallet.balance x <? 0 then Throw (ValidationError "balance")
  else Ok tt.

(** The casts and defaults of the schema on a new document. *)
Definition cast (d : Data) (t : Date) : Result Wallet.t :=
  match StorageType_parse (d_storageType d), Network_parse (d_network d) with
  | None, _ => Throw (ValidationError "storageType")
  | _, None => Throw (ValidationError "network")
  | Some st, Some net =>
      Ok {| Wallet.user := d_user d;
            Wallet.name := JS.trim (d_name d);
            Wallet.description := JS.trim (d_description d);
            Wallet.publicAddress := d_publicAddress d;
            Wallet.publicKey := d_publicKey d;
            Wallet.storageType := st;
            Wallet.encryptedPrivateKey := d_encryptedPrivateKey d;
            Wallet.encryptionMeta :=
              default {| Wallet.iv := None; Wallet.authTag := None;
                         Wallet.algorithm := "aes-256-gcm" |}
                (d_encryptionMeta d);
            Wallet.balance := d_balance d;
            Wallet.pendingBalance := 0;
            Wallet.network := net;
            Wallet.status := active;
            Wallet.color := d_color d;
            Wallet.transactionCount := 0;
            Wallet.lastActivity := t;
            Wallet.integrityHash := "";
            Wallet.createdAt := None;
            Wallet.updatedAt := None |}
  end.

(** What the timestamps and the pre-save hook write on a new document. *)
Definition presave (doc : Wallet.t) (t : Date) : Wallet.t :=
  let doc := Wallet.stamp doc t in
  Wallet.set_integrityHash doc (Wallet.generateIntegrityHash env t doc).

(** [Wallet.create(data)]: a new document always gets its integrity
    hash from the pre-save hook; [publicAddress] is unique. *)
Definition create (d : Data) : M (ObjectId * Wallet.t) :=
  t0 ← now oracle;
  doc ← lift (cast d t0);
  _ ← lift (validate doc);
  t ← now oracle;
  let saved := presave doc t in
  _ ← commit oracle;
  w ← getWorld;
  if bool_decide (Wallet.publicAddress saved
                  ∈ (Wallet.publicAddress ∘ snd) <$> map_to_list (wallets w))
  then throw (DuplicateKey "publicAddress")
  else
    let id := fresh (dom (wallets w)) in
    _ ← putWorld (set_wallets w (<[id := saved]> (wallets w)));
    mret (id, saved).

(** [wallet.save()] on a document loaded as [old] and changed to [new]:
    the hash is recomputed when the balance or the address was modified. *)
Definition save (walletId : ObjectId) (old new : Wallet.t) : M Wallet.t :=
  _ ← lift (validate new);
  t ← now oracle;
  let doc := Wallet.stamp new t in
  let saved :=
    if bool_decide (Wallet.balance new <> Wallet.balance old
                    \/ Wallet.publicAddress new <> Wallet.publicAddress old)
    then Wallet.set_integrityHash doc (Wallet.generateIntegrityHash env t doc)
    else doc in
  _ ← commit oracle;
  w ← getWorld;
  _ ← putWorld (set_wallets w (<[walletId := saved]> (wallets w)));
  mret saved.
End Statics.
End WalletModel.

(** ** services/wallet.service.js *)

Module WalletService.

(** The arguments of [createWallet]; [storageType] defaults to 'hot'. *)
Record CreateParams := {
  userId : ObjectId;
  name : string;
  description : option string;
  storageType : option string;
  color : option string
}.

Definition storageType_of (p : CreateParams) : string :=
  default "hot" (storageType p).

(** What [createWallet] returns; the private key is there for a cold
    wallet only. *)
Record Response := {
  wallet_id : ObjectId;
  wallet : Wallet.t;
  message : string;
  privateKey : option string;
  privateKeyWIF : option string
}.

Inductive Operation := subtract | add.

Definition colors : list string :=
  [ "#F7931A"; "#627EEA"; "#26A17B"; "#8247E5";
    "#E84142"; "#2775CA"; "#F0B90B"; "#00D395" ].

Section Service.
Context `{Curve} `{AddressCodec}.
Variable env : Env.
Variable oracle : Oracle.

Definition generateRandomColor : M string :=
  i ← randomBelow oracle 8; mret (nth (Z.to_nat i) colors "#F7931A").

(** The object [walletData]: of the key pair it takes the address, the
    public key and the network; the encrypted private key and its
    metadata are added for a hot wallet only. *)
Definition walletData (p : CreateParams) (address publicKey network : string)
    (color : string) (encrypted : option CryptoService.Encrypted)
  : WalletModel.Data :=
  {| WalletModel.d_user := userId p;
     WalletModel.d_name := name p;
     WalletModel.d_description :=
       default "" (JS.or_string (description p) (Some ""));
     WalletModel.d_publicAddress := address;
     WalletModel.d_publicKey := publicKey;
     WalletModel.d_storageType := storageType_of p;
     WalletModel.d_network := network;
     WalletModel.d_color := color;
     WalletModel.d_balance := 100000000;
     WalletModel.d_encryptedPrivateKey :=
       CryptoService.encryptedData <$> encrypted;
     WalletModel.d_encryptionMeta :=
       (fun e => {| Wallet.iv := Some (CryptoService.iv e);
                    Wallet.authTag := Some (CryptoService.authTag e);
                    Wallet.algorithm := "aes-256-gcm" |}) <$> encrypted |}.

Definition createWallet (p : CreateParams) : M Response :=
  rethrowM WalletCreationFailed
    (keyPair ← CryptoService.generateKeyPair env oracle;
     color ← match JS.or_string (color p) None with
             | Some c => mret c
             | None => generateRandomColor
             end;
     encrypted ←
       (if decide (storageType_of p = "hot") then
          encrypted ← CryptoService.encryptPrivateKey env oracle
                        (CryptoService.privateKey keyPair);
          mret (Some encrypted)
        else mret None);
     created ← WalletModel.create env oracle
                 (walletData p (CryptoService.address keyPair)
                    (CryptoService.publicKey keyPair)
                    (CryptoService.network keyPair) color encrypted);
     let cold_wallet := bool_decide (storageType_of p = "cold") in
     mret {| wallet_id := fst created;
             wallet := snd created;
             message :=
               if cold_wallet
               then "IMPORTANT: Save your private key securely. It will NEVER be shown again!"
               else "Wallet created successfully. Private key is securely encrypted.";
             privateKey :=
               if cold_wallet then Some (CryptoService.privateKey keyPair) else None;
             privateKeyWIF :=
               if cold_wallet then Some (CryptoService.privateKeyWIF keyPair)
               else None |}).

Definition getWalletByAddress (address : string)
  : M (option (ObjectId * Wallet.t)) :=
  WalletModel.findByAddress address.

Definition updateBalance (walletId : ObjectId) (amount : Z)
    (operation : Operation) : M Wallet.t :=
  found ← WalletModel.findById walletId;
  match found with
  | None => throw WalletNotFound
  | Some wallet =>
      changed ←
        match operation with
        | subtract =>
            if Wallet.balance wallet <? amount then throw BalanceTooLow
            else mret (Wallet.set_balance wallet (Wallet.balance wallet - amount))
        | add =>
            mret (Wallet.set_balance wallet (Wallet.balance wallet + amount))
        end;
      t ← now oracle;
      WalletModel.save env oracle walletId wallet (Wallet.touch changed t)
  end.

(** [verifyWalletIntegrity]: the clock is read only for a document
    without [createdAt]. *)
Definition verifyWalletIntegrity (walletId : ObjectId) : M bool :=
  found ← WalletModel.findById walletId;
  match found with
  | None => throw WalletNotFound
  | Some wallet =>
      match Wallet.createdAt wallet with
      | Some t => mret (Wallet.verifyIntegrity env t wallet)
      | None => t ← now oracle; mret (Wallet.verifyIntegrity env t wallet)
      end
  end.

Definition validatePrivateKeyForWallet (privateKey publicAddress : string)
  : bool :=
  CryptoService.validateKeyPair env privateKey publicAddress.
End Service.

End WalletService.

(** ** services/transaction.service.js *)

Module TransactionService.

Record Params := {
  userId : ObjectId;
  walletId : ObjectId;
  toAddress : string;
  amount : Z;
  memo : string;
  privateKey : option string;
  ipAddress : option string;
  userAgent : option string
}.

Record Receipt := {
  transaction : Transaction.t;
  message : string;
  newBalance : Z
}.

(** One line of the report of [verifyTransactionChain]. *)
Record ChainEntry := {
  entry_txId : string;
  integrityValid : bool;
  chainLinkValid : bool;
  entry_createdAt : option Date
}.

Record ChainReport := {
  report_walletId : ObjectId;
  totalTransactions : nat;
  chainValid : bool;
  results : list ChainEntry
}.

Section Service.
Context `{Curve} `{AddressCodec}.
Variable env : Env.
Variable oracle : Oracle.

(** The fee is a constant: 0.0001 BTC. *)
Definition fee : Z := 10000.

(** The document of the send transaction. *)
Definition sendDocument (p : Params) (senderWallet : Wallet.t)
    (txId : string) (previousTxHash : option string) (newBalance : Z)
    (blockNumber : Z) (blockHash : string) (signature : string)
    (confirmedAt : Date) : Transaction.t :=
  {| Transaction.wallet := walletId p;
     Transaction.user := userId p;
     Transaction.txId := txId;
     Transaction.type := send;
     Transaction.status := confirmed;
     Transaction.amount := amount p;
     Transaction.fee := fee;
     Transaction.fromAddress := Wallet.publicAddress senderWallet;
     Transaction.toAddress := toAddress p;
     Transaction.balanceAfter := newBalance;
     Transaction.confirmations := 6;
     Transaction.blockNumber := Some blockNumber;
     Transaction.blockHash := Some blockHash;
     Transaction.memo := memo p;
     Transaction.signingMethod := Wallet.storageType senderWallet;
     Transaction.signature := Some signature;
     Transaction.integrityHash := "";
     Transaction.previousTxHash := previousTxHash;
     Transaction.ipAddress := ipAddress p;
     Transaction.userAgent := userAgent p;
     Transaction.confirmedAt := Some confirmedAt;
     Transaction.createdAt := None;
     Transaction.updatedAt := None |}.

(** The document of the receive transaction mirrored for a recipient
    that is a wallet of the system. *)
Definition receiveDocument (p : Params) (senderWallet : Wallet.t)
    (transaction : Transaction.t) (recipientId : ObjectId)
    (recipientWallet : Wallet.t) (txId : string)
    (previousTxHash : option string) (confirmedAt : Date) : Transaction.t :=
  {| Transaction.wallet := recipientId;
     Transaction.user := Wallet.user recipientWallet;
     Transaction.txId := txId +:+ "-receive";
     Transaction.type := receive;
     Transaction.status := confirmed;
     Transaction.amount := amount p;
     Transaction.fee := 0;
     Transaction.fromAddress := Wallet.publicAddress senderWallet;
     Transaction.toAddress := toAddress p;
     Transaction.balanceAfter := Wallet.balance recipientWallet + amount p;
     Transaction.confirmations := 6;
     Transaction.blockNumber := Transaction.blockNumber transaction;
     Transaction.blockHash := Transaction.blockHash transaction;
     Transaction.memo :=
       "Received from "
       +:+ JS.slice_to 8 (Wallet.publicAddress senderWallet) +:+ "...";
     Transaction.signingMethod := Wallet.storageType senderWallet;
     Transaction.signature := None;
     Transaction.integrityHash := "";
     Transaction.previousTxHash := previousTxHash;
     Transaction.ipAddress := None;
     Transaction.userAgent := None;
     Transaction.confirmedAt := Some confirmedAt;
     Transaction.createdAt := None;
     Transaction.updatedAt := None |}.

(** The signing key: decrypted from the record of a hot wallet, supplied
    by the caller and checked against the address for a cold one. *)
Definition signingKeyFor (p : Params) (senderWallet : Wallet.t)
  : Result string :=
  match Wallet.storageType senderWallet with
  | hot =>
      CryptoService.decryptPrivateKey env
        (Wallet.encryptedPrivateKey senderWallet)
        (Wallet.iv (Wallet.encryptionMeta senderWallet))
        (Wallet.authTag (Wallet.encryptionMeta senderWallet))
  | cold =>
      match JS.or_string (privateKey p) None with
      | None => Throw PrivateKeyRequired
      | Some key =>
          if negb (WalletService.validatePrivateKeyForWallet env key
                     (Wallet.publicAddress senderWallet))
          then Throw InvalidPrivateKey
          else Ok key
      end
  end.

(** The writes of a send: the send record, the debit of the sender and,
    for a recipient that is a wallet of the system, the receive record
    and the credit. *)
Definition recordAndSettle (p : Params) (senderWallet : Wallet.t)
    (signingKey : string) : M Receipt :=
  let totalAmount := amount p + fee in
  txId ← TransactionModel.generateTxId oracle;
  previousTxHash ← TransactionModel.generateChainHash (walletId p);
  timestamp ← now oracle;
  let transactionData :=
    {| CryptoService.td_txId := txId;
       CryptoService.td_fromAddress := Wallet.publicAddress senderWallet;
       CryptoService.td_toAddress := toAddress p;
       CryptoService.td_amount := amount p;
       CryptoService.td_fee := fee;
       CryptoService.td_timestamp := timestamp;
       CryptoService.td_previousTxHash := previousTxHash |} in
  signatureResult ←
    lift (CryptoService.signTransaction signingKey transactionData);
  let newBalance := Wallet.balance senderWallet - totalAmount in
  (* Create the transaction record *)
  blockNumber ← randomBelow oracle 1000000;
  blockHash ← CryptoService.generateRandomBytes oracle 32;
  confirmedAt ← now oracle;
  transaction ←
    TransactionModel.create env oracle
      (sendDocument p senderWallet txId previousTxHash newBalance
         (blockNumber + 800000) blockHash
         (CryptoService.signature signatureResult) confirmedAt);
  (* Update sender wallet balance *)
  _ ← WalletService.updateBalance env oracle (walletId p) totalAmount
        WalletService.subtract;
  (* Check if recipient wallet exists in our system *)
  recipient ← WalletService.getWalletByAddress (toAddress p);
  _ ← match recipient with
      | Some (recipientId, recipientWallet) =>
          (* Create receive transaction for recipient *)
          recipientPrevious ← TransactionModel.generateChainHash recipientId;
          receivedAt ← now oracle;
          _ ← TransactionModel.create env oracle
                (receiveDocument p senderWallet transaction recipientId
                   recipientWallet txId recipientPrevious receivedAt);
          (* Update recipient balance *)
          _ ← WalletService.updateBalance env oracle recipientId (amount p)
                WalletService.add;
          mret tt
      | None => mret tt
      end;
  mret {| transaction := transaction;
          message := "Transaction completed successfully";
          newBalance := newBalance |}.

(** What the send record of a call from world [w] looks like. *)
Definition sendRecord (p : Params) (senderWallet : Wallet.t) (w : World)
    (tx : Transaction.t) : Prop :=
  Transaction.wallet tx = walletId p
  /\ Transaction.txId tx
     = Buffer.to_hex (Buffer.of_number 32 (random oracle (draws w)))
  /\ Transaction.type tx = send
  /\ Transaction.status tx = confirmed
  /\ Transaction.amount tx = amount p
  /\ Transaction.fee tx = fee
  /\ Transaction.balanceAfter tx
     = Wallet.balance senderWallet - (amount p + fee)
  /\ Transaction.confirmations tx = 6
  /\ is_Some (Transaction.confirmedAt tx)
  /\ Transaction.txId tx ∉ Transaction.txId <$> transactions w.

(** What the receive record mirrored for the wallet [recipientId] looks
    like. *)
Definition receiveRecord (p : Params) (tx : Transaction.t)
    (recipientId : ObjectId) (recipientWallet : Wallet.t) (w : World)
    (rx : Transaction.t) : Prop :=
  Transaction.wallet rx = recipientId
  /\ Transaction.txId rx = Transaction.txId tx +:+ "-receive"
  /\ Transaction.type rx = receive
  /\ Transaction.status rx = confirmed
  /\ Transaction.amount rx = amount p
  /\ Transaction.fee rx = 0
  /\ Transaction.balanceAfter rx = Wallet.balance recipientWallet + amount p
  /\ Transaction.confirmations rx = 6
  /\ is_Some (Transaction.confirmedAt rx)
  /\ Transaction.txId rx ∉ Transaction.txId <$> (transactions w ++ [tx]).

Definition receiptFor (p : Params) (senderWallet : Wallet.t)
    (tx : Transaction.t) : Receipt :=
  {| transaction := tx;
     message := "Transaction completed successfully";
     newBalance := Wallet.balance senderWallet - (amount p + fee) |}.

(** The checks a send passes before anything is drawn or written. *)
Definition accepted (p : Params) (w : World) (senderWallet : Wallet.t)
    (key : string) : Prop :=
  wallets w !! walletId p = Some senderWallet
  /\ Wallet.user senderWallet = userId p
  /\ Wallet.status senderWallet = active
  /\ CryptoService.validateAddress env (toAddress p) = true
  /\ Wallet.publicAddress senderWallet <> toAddress p
  /\ amount p + fee <= Wallet.balance senderWallet
  /\ signingKeyFor p senderWallet = Ok key.

(** The sender after the debit. *)
Definition debited (p : Params) (s s' : Wallet.t) : Prop :=
  Wallet.balance s' = Wallet.balance s - (amount p + fee)
  /\ Wallet.publicAddress s' = Wallet.publicAddress s.

(** [findOne({ publicAddress })] over a collection. *)
Definition lookupAddress (ws : gmap ObjectId Wallet.t) (address : string)
  : option (ObjectId * Wallet.t) :=
  List.find (fun x => bool_decide (Wallet.publicAddress (snd x) = address))
    (map_to_list ws).

(** The ways a send from world [w] can end: with nothing written; with
    the send record only; with the send record and the debit but no
    receive record; with the receive record but no credit; completed for
    a foreign address; completed for a wallet of the system. *)
Inductive Outcome (p : Params) (w : World) : Result Receipt -> World -> Prop :=
  | NothingWritten e w1 :
      same_store w w1 -> Outcome p w (Throw e) w1
  | SendRecordOnly e w1 s key tx :
      accepted p w s key -> sendRecord p s w tx ->
      wallets w1 = wallets w ->
      transactions w1 = transactions w ++ [tx] ->
      Outcome p w (Throw e) w1
  | DebitOnly e w1 s key tx s' rid r :
      accepted p w s key -> sendRecord p s w tx -> debited p s s' ->
      <[walletId p := s']> (wallets w) !! rid = Some r ->
      Wallet.publicAddress r = toAddress p ->
      wallets w1 = <[walletId p := s']> (wallets w) ->
      transactions w1 = transactions w ++ [tx] ->
      Outcome p w (Throw e) w1
  | CreditMissing e w1 s key tx s' rid r rx :
      accepted p w s key -> sendRecord p s w tx -> debited p s s' ->
      <[walletId p := s']> (wallets w) !! rid = Some r ->
      Wallet.publicAddress r = toAddress p ->
      receiveRecord p tx rid r w rx ->
      wallets w1 = <[walletId p := s']> (wallets w) ->
      transactions w1 = transactions w ++ [tx; rx] ->
      Outcome p w (Throw e) w1
  | SentAbroad w1 s key tx s' :
      accepted p w s key -> sendRecord p s w tx -> debited p s s' ->
      lookupAddress (<[walletId p := s']> (wallets w)) (toAddress p) = None ->
      wallets w1 = <[walletId p := s']> (wallets w) ->
      transactions w1 = transactions w ++ [tx] ->
      Outcome p w (Ok (receiptFor p s tx)) w1
  | SentHome w1 s key tx s' rid r rx r' :
      accepted p w s key -> sendRecord p s w tx -> debited p s s' ->
      <[walletId p := s']> (wallets w) !! rid = Some r ->
      Wallet.publicAddress r = toAddress p ->
      receiveRecord p tx rid r w rx ->
      Wallet.balance r' = Wallet.balance r + amount p ->
      wallets w1 = <[rid := r']> (<[walletId p := s']> (wallets w)) ->
      transactions w1 = transactions w ++ [tx; rx] ->
      Outcome p w (Ok (receiptFor p s tx)) w1.

(** A record a send may persist: confirmed on creation. *)
Definition bornConfirmed (x : Transaction.t) : Prop :=
  Transaction.status x = confirmed
  /\ Transaction.confirmations x = 6
  /\ is_Some (Transaction.confirmedAt x).

Definition createTransaction (p : Params) : M Receipt :=
  (* Get sender wallet *)
  found ← WalletModel.findActive (walletId p) (userId p);
  match found with
  | None => throw SenderWalletNotFound
  | Some senderWallet =>
      (* Validate recipient address *)
      if negb (CryptoService.validateAddress env (toAddress p)) then
        throw InvalidRecipientAddress
      (* Prevent sending to self *)
      else if decide (Wallet.publicAddress senderWallet = toAddress p) then
        throw CannotSendToSameAddress
      (* Check balance *)
      else if Wallet.balance senderWallet <? amount p + fee then
        throw (InsufficientBalance (Wallet.balance senderWallet)
                 (amount p + fee))
      else
        (* Get private key based on storage type *)
        signingKey ← lift (signingKeyFor p senderWallet);
        recordAndSettle p senderWallet signingKey
  end.

(** The loop of [verifyTransactionChain] over the loaded transactions. *)
Fixpoint verifyLoop (txs : list Transaction.t) (results : list ChainEntry)
    (previousHash : option string) (chainValid : bool)
  : M (list ChainEntry * bool) :=
  match txs with
  | [] => mret (results, chainValid)
  | tx :: rest =>
      integrityValid ← TransactionModel.verifyIntegrity env oracle tx;
      let chainLinkValid :=
        match previousHash with
        | None => true
        | Some h => bool_decide (Transaction.previousTxHash tx = Some h)
        end in
      let chainValid :=
        if negb integrityValid || negb chainLinkValid then false
        else chainValid in
      verifyLoop rest
        (results ++ [{| entry_txId := Transaction.txId tx;
                        integrityValid := integrityValid;
                        chainLinkValid := chainLinkValid;
                        entry_createdAt := Transaction.createdAt tx |}])
        (Some (Transaction.integrityHash tx)) chainValid
  end.

(** The same report, line by line, for documents that carry a
    [createdAt] (every stored document does). *)
Definition linkValid (previousHash : option string) (tx : Transaction.t)
  : bool :=
  match previousHash with
  | None => true
  | Some h => bool_decide (Transaction.previousTxHash tx = Some h)
  end.

Definition entryOf (previousHash : option string) (tx : Transaction.t)
  : ChainEntry :=
  {| entry_txId := Transaction.txId tx;
     integrityValid :=
       Transaction.verifyIntegrity env
         (default 0 (Transaction.createdAt tx)) tx;
     chainLinkValid := linkValid previousHash tx;
     entry_createdAt := Transaction.createdAt tx |}.

Fixpoint entriesFrom (previousHash : option string)
    (txs : list Transaction.t) : list ChainEntry :=
  match txs with
  | [] => []
  | tx :: rest =>
      entryOf previousHash tx
        :: entriesFrom (Some (Transaction.integrityHash tx)) rest
  end.

Definition entryValid (e : ChainEntry) : bool :=
  integrityValid e && chainLinkValid e.

(** An untampered history: every document hashes to its stored
    integrity hash, the first one links to null and every other one to
    the stored hash of its predecessor. *)
Fixpoint linked (previousHash : option string) (txs : list Transaction.t)
  : Prop :=
  match txs with
  | [] => True
  | tx :: rest =>
      Transaction.previousTxHash tx = previousHash
      /\ linked (Some (Transaction.integrityHash tx)) rest
  end.

Definition intact (tx : Transaction.t) : Prop :=
  exists t, Transaction.createdAt tx = Some t
            /\ Transaction.verifyIntegrity env t tx = true.

Definition untampered (txs : list Transaction.t) : Prop :=
  Forall intact txs /\ linked None txs.

Definition dated (txs : list Transaction.t) : Prop :=
  Forall (fun tx => is_Some (Transaction.createdAt tx)) txs.

(** The hash the next transaction of a history has to link to. *)
Definition tip (txs : list Transaction.t) : option string :=
  Transaction.integrityHash <$> last txs.

(** The same behind a history that starts from [previousHash]. *)
Definition from_tip (previousHash : option string)
    (txs : list Transaction.t) : option string :=
  match last txs with
  | Some tx => Some (Transaction.integrityHash tx)
  | None => previousHash
  end.

(** An entry of the report that passes both checks. *)
Definition passes (e : ChainEntry) : Prop :=
  integrityValid e = true /\ chainLinkValid e = true.

Definition verifyTransactionChain (walletId userId : ObjectId) : M ChainReport :=
  (* Verify wallet ownership *)
  owned ← WalletModel.findOwned walletId userId;
  match owned with
  | None => throw WalletNotFound
  | Some _ =>
      txs ← TransactionModel.find_sorted walletId;
      '(results, chainValid) ← verifyLoop txs [] None true;
      mret {| report_walletId := walletId;
              totalTransactions := length txs;
              chainValid := chainValid;
              results := results |}
  end.
End Service.

End TransactionService.

(** ** A small platform to run the services on

    The curve y^2 = x^3 + 7 over the field of 13 elements has seven points,
    a group of prime order like secp256k1. Its points are named by their
    multiple of the generator (7, 5). The address encodings are stand-ins
    with the shape of the real ones (a network prefix, then a digest). *)

Module Tiny.

Inductive pt := P0 | P1 | P2 | P3 | P4 | P5 | P6.

#[global] Instance pt_eq_dec : EqDecision pt.
Proof. solve_decision. Defined.

Definition index (p : pt) : Z :=
  match p with
  | P0 => 0 | P1 => 1 | P2 => 2 | P3 => 3 | P4 => 4 | P5 => 5 | P6 => 6
  end.

Definition of_index (k : Z) : pt :=
  match k mod 7 with
  | 0 => P0 | 1 => P1 | 2 => P2 | 3 => P3 | 4 => P4 | 5 => P5 | _ => P6
  end.

(** The affine coordinates of the finite points. *)
Definition coordinates (p : pt) : Z * Z :=
  match p with
  | P0 => (0, 0)
  | P1 => (7, 5) | P2 => (8, 5) | P3 => (11, 8)
  | P4 => (11, 5) | P5 => (8, 8) | P6 => (7, 8)
  end.

Definition add (a b : pt) : pt := of_index (index a + index b).
Definition neg (a : pt) : pt := of_index (- index a).

Definition encode (p : pt) : Buffer.t :=
  let '(x, y) := coordinates p in
  Buffer.of_Z (2 + y mod 2) :: Buffer.of_number 32 x.

Definition decode (b : Buffer.t) : option pt :=
  List.find (fun p => bool_decide (encode p = b)) [P1; P2; P3; P4; P5; P6].

#[global] Instance curve : Curve := {|
  point := pt;
  infinity := P0;
  padd := add;
  pneg := neg;
  G := P1;
  order := 7;
  x_coord := fun p => fst (coordinates p);
  encode_point := encode;
  decode_point := decode;
  rfc6979 := fun d e i => 1 + (d + e + Z.of_nat i) mod 6
|}.

Definition prefix (n : Network) : string :=
  match n with mainnet => "1" | _ => "m" end.

#[global] Instance codec : AddressCodec := {|
  p2pkh := fun n pub =>
    prefix n +:+ Buffer.to_hex (firstn 20 (SHA256.digest pub));
  toOutputScript_ok := fun n a =>
    bool_decide (String.substring 0 1 a = prefix n)
    && Nat.eqb (String.length a) 41;
  toWIF := fun n d =>
    (match n with mainnet => "K" | _ => "c" end) +:+ Buffer.to_hex d
|}.

Definition env : Env :=
  {| ENCRYPTION_KEY := Some "correct horse battery staple";
     INTEGRITY_SECRET := Some "integrity secret";
     BITCOIN_NETWORK := None |}.

(** Draws 3, 1003, 2003, ...; a clock that advances one second per
    reading from 2024-01-01; a store that refuses nothing. *)
Definition oracle : Oracle :=
  {| random := fun k => 3 + 1000 * Z.of_nat k;
     clock := fun k => 1704067200000 + 1000 * Z.of_nat k;
     refuses := fun _ => false |}.

Definition empty : World :=
  {| wallets := ∅; transactions := []; draws := 0; ticks := 0; writes := 0 |}.

End Tiny.

(** ** A scenario on the small platform

    Alice (user 1) creates a hot wallet, Bob (user 2) a cold one; Alice
    then sends three times. *)

Module Scenario.

Import TransactionService.

(** The draws: Alice's key 3, her colour, her IV; Bob's key 5; from then on
    1000 k + 7 for the k-th draw. The clock advances one second per reading
    from 2024-01-01. The store refuses nothing. *)
Definition oracle : Oracle :=
  {| random := fun k => nth k [3; 1; 2001; 5] (1000 * Z.of_nat k + 7);
     clock := fun k => 1704067200000 + 1000 * Z.of_nat k;
     refuses := fun _ => false |}.

Definition alice : ObjectId := 0%N.
Definition bob : ObjectId := 1%N.
Definition alice_address : string := "m7928087b2c46af798984fad8665e853e73fac34b".
Definition bob_address : string := "m95277901a2f5c720914977e171f9fc08fc8952f1".
Definition foreign_address : string := "m0000000000000000000000000000000000000000".
Definition bob_key : string :=
  "0000000000000000000000000000000000000000000000000000000000000005".
Definition wrong_key : string :=
  "0000000000000000000000000000000000000000000000000000000000000002".

(** A payload of the shape createTransaction signs. *)
Definition payload : CryptoService.TransactionData :=
  {| CryptoService.td_txId := "00ff";
     CryptoService.td_fromAddress := bob_address;
     CryptoService.td_toAddress := alice_address;
     CryptoService.td_amount := 50000;
     CryptoService.td_fee := 10000;
     CryptoService.td_timestamp := 1704067200000;
     CryptoService.td_previousTxHash := None |}.

Definition created_alice :=
  Eval vm_compute in
    WalletService.createWallet Tiny.env oracle
      {| WalletService.userId := 1%N; WalletService.name := "Savings";
         WalletService.description := None;
         WalletService.storageType := Some "hot";
         WalletService.color := None |} Tiny.empty.

Definition created_bob :=
  Eval vm_compute in
    WalletService.createWallet Tiny.env oracle
      {| WalletService.userId := 2%N; WalletService.name := "Vault";
         WalletService.description := Some "kept offline";
         WalletService.storageType := Some "cold";
         WalletService.color := Some "#000000" |} (snd created_alice).

(** The world with the two fresh wallets. *)
Definition start : World := Eval vm_compute in snd created_bob.

Definition from_alice (to : string) (amount : Z) : Params :=
  {| userId := 1%N; walletId := alice; toAddress := to; amount := amount;
     memo := ""; privateKey := None; ipAddress := None; userAgent := None |}.

Definition from_bob (to : string) (amount : Z) (key : string) : Params :=
  {| userId := 2%N; walletId := bob; toAddress := to; amount := amount;
     memo := ""; privateKey := Some key; ipAddress := None;
     userAgent := None |}.

(** Alice sends 50000 satoshis to a foreign address, then twice more. *)
Definition first_send :=
  Eval vm_compute in
    createTransaction Tiny.env oracle (from_alice foreign_address 50000) start.
Definition second_send :=
  Eval vm_compute in
    createTransaction Tiny.env oracle (from_alice foreign_address 1000)
      (snd first_send).
Definition third_send :=
  Eval vm_compute in
    createTransaction Tiny.env oracle (from_alice foreign_address 2000)
      (snd second_send).

(** Alice's history after the three sends. *)
Definition history : list Transaction.t :=
  Eval vm_compute in
    TransactionModel.of_wallet alice (transactions (snd third_send)).

(** A transaction forged by someone who knows the secret: it hashes to its
    own integrity hash but links to a hash that is not in the history. *)
Definition forged_body : Transaction.t :=
  {| Transaction.wallet := alice;
     Transaction.user := 1%N;
     Transaction.txId := "f0";
     Transaction.type := receive;
     Transaction.status := confirmed;
     Transaction.amount := 1000000000;
     Transaction.fee := 0;
     Transaction.fromAddress := foreign_address;
     Transaction.toAddress := alice_address;
     Transaction.balanceAfter := 1099940000;
     Transaction.confirmations := 6;
     Transaction.blockNumber := None;
     Transaction.blockHash := None;
     Transaction.memo := "";
     Transaction.signingMethod := hot;
     Transaction.signature := None;
     Transaction.integrityHash := "";
     Transaction.previousTxHash := Some "00";
     Transaction.ipAddress := None;
     Transaction.userAgent := None;
     Transaction.confirmedAt := None;
     Transaction.createdAt := None;
     Transaction.updatedAt := None |}.

Definition forged : Transaction.t :=
  Eval vm_compute in
    Transaction.stamp forged_body 1704067207500
      (Transaction.generateIntegrityHash Tiny.env 1704067207500 forged_body).

(** Alice's wallet as it is stored at the start. *)
Definition alice_wallet : Wallet.t :=
  {| Wallet.user := 1%N;
     Wallet.name := "Savings";
     Wallet.description := "";
     Wallet.publicAddress := alice_address;
     Wallet.publicKey :=
       "02000000000000000000000000000000000000000000000000000000000000000b";
     Wallet.storageType := hot;
     Wallet.encryptedPrivateKey :=
       Some "e3d2182584423b6033c60a3d7bf6a3a6acc1ae9f5f9f234c903056e7555ef8466736c72358f0d52fa5caa75049e32482c9b8954763303961997454be1a1b77d4";
     Wallet.encryptionMeta :=
       {| Wallet.iv := Some "000000000000000000000000000007d1";
          Wallet.authTag := Some "084d079af87d568982b68917fe34702c";
          Wallet.algorithm := "aes-256-gcm" |};
     Wallet.balance := 100000000;
     Wallet.pendingBalance := 0;
     Wallet.network := testnet;
     Wallet.status := active;
     Wallet.color := "#627EEA";
     Wallet.transactionCount := 0;
     Wallet.lastActivity := 1704067200000;
     Wallet.integrityHash :=
       "ef9936cd31e0f672cea3e10a521dcb48d79d92f5b73d5270659b3cd8cdf7bf9f";
     Wallet.createdAt := Some 1704067201000;
     Wallet.updatedAt := Some 1704067201000 |}.

(** Alice sends 70000 satoshis to Bob's wallet. *)
Definition send_to_bob :=
  Eval vm_compute in
    createTransaction Tiny.env oracle (from_alice bob_address 70000) start.

(** The store refuses the third write of the send, the receive record. *)
Definition refusing_third : Oracle :=
  {| random := random oracle;
     clock := clock oracle;
     refuses := fun k => Nat.eqb k (writes start + 2) |}.

Definition interrupted :=
  Eval vm_compute in
    createTransaction Tiny.env refusing_third (from_alice bob_address 70000)
      start.

End Scenario.

(** * Properties *)

(** ** Strings *)

Lemma string_app_cons (x : ascii) (a b : string) :
  String x a +:+ b = String x (a +:+ b).
Proof. reflexivity. Qed.

Lemma string_app_assoc (a b c : string) : (a +:+ b) +:+ c = a +:+ b +:+ c.
Proof.
  induction a as [|x a IH]; [reflexivity |].
  rewrite !string_app_cons. now rewrite IH.
Qed.

Lemma string_app_length (a b : string) :
  String.length (a +:+ b) = (String.length a + String.length b)%nat.
Proof.
  induction a as [|x a IH]; [reflexivity |].
  rewrite string_app_cons. simpl. now rewrite IH.
Qed.

Lemma string_app_inv_tail (a b c : string) : a +:+ c = b +:+ c -> a = b.
Proof.
  revert b. induction a as [|x a IH]; intros [|y b] H.
  - reflexivity.
  - apply (f_equal String.length) in H.
    rewrite !string_app_length in H. simpl in H. lia.
  - apply (f_equal String.length) in H.
    rewrite !string_app_length in H. simpl in H. lia.
  - rewrite !string_app_cons in H. injection H as -> H. f_equal. now apply IH.
Qed.

Lemma to_hex_length (b : Buffer.t) :
  String.length (Buffer.to_hex b) = (2 * length b)%nat.
Proof. induction b as [|x b IH]; simpl; [reflexivity | rewrite IH; lia]. Qed.

Lemma of_number_length (n : nat) (z : Z) : length (Buffer.of_number n z) = n.
Proof.
  revert z. induction n as [|n IH]; intros z; simpl; [reflexivity |].
  rewrite length_app, IH. simpl. lia.
Qed.

(** ** Buffers *)

Lemma to_Z_range (b : byte) : 0 <= Buffer.to_Z b < 256.
Proof.
  unfold Buffer.to_Z. pose proof (Byte.to_N_bounded b) as Hb.
  lia.
Qed.

Lemma of_Z_to_Z (b : byte) : Buffer.of_Z (Buffer.to_Z b) = b.
Proof.
  unfold Buffer.of_Z. rewrite Z.mod_small by apply to_Z_range.
  unfold Buffer.to_Z. rewrite N2Z.id. now rewrite Byte.of_to_N.
Qed.

Lemma to_Z_of_Z (z : Z) : 0 <= z < 256 -> Buffer.to_Z (Buffer.of_Z z) = z.
Proof.
  intros Hz. unfold Buffer.of_Z, Buffer.to_Z. rewrite Z.mod_small by assumption.
  destruct (Byte.of_N (Z.to_N z)) as [b|] eqn:Hb.
  - apply Byte.to_of_N in Hb. rewrite Hb. lia.
  - apply Byte.of_N_None_iff in Hb. lia.
Qed.

Lemma lxor_byte_range (x y : Z) :
  0 <= x < 256 -> 0 <= y < 256 -> 0 <= Z.lxor x y < 256.
Proof.
  intros Hx Hy.
  assert (Hnn : 0 <= Z.lxor x y) by (apply Z.lxor_nonneg; lia).
  split; [assumption |].
  destruct (Z.eq_dec (Z.lxor x y) 0) as [-> | Hnz]; [lia |].
  change 256 with (2 ^ 8). apply Z.log2_lt_pow2; [lia |].
  eapply Z.le_lt_trans; [apply Z.log2_lxor; lia |].
  assert (Hlog : forall v, 0 <= v < 256 -> Z.log2 v < 8).
  { intros v Hv. destruct (Z.eq_dec v 0) as [-> | Hv0]; [reflexivity |].
    apply Z.log2_lt_pow2; lia. }
  specialize (Hlog x Hx) as Hlx. specialize (Hlog y Hy) as Hly. lia.
Qed.

Lemma bxor_involutive (a k : byte) : GCM.bxor (GCM.bxor a k) k = a.
Proof.
  unfold GCM.bxor.
  rewrite to_Z_of_Z by (apply lxor_byte_range; apply to_Z_range).
  rewrite Z.lxor_assoc, Z.lxor_nilpotent, Z.lxor_0_r. apply of_Z_to_Z.
Qed.

Lemma xor_buffers_length (a b : Buffer.t) :
  (length a <= length b)%nat -> length (GCM.xor_buffers a b) = length a.
Proof.
  intros Hle. unfold GCM.xor_buffers.
  rewrite length_map, length_combine. lia.
Qed.

Lemma xor_buffers_cons (x y : byte) (a b : Buffer.t) :
  GCM.xor_buffers (x :: a) (y :: b) = GCM.bxor x y :: GCM.xor_buffers a b.
Proof. reflexivity. Qed.

Lemma xor_buffers_involutive (a b : Buffer.t) :
  (length a <= length b)%nat ->
  GCM.xor_buffers (GCM.xor_buffers a b) b = a.
Proof.
  revert b. induction a as [|x a IH]; intros [|y b] Hle;
    try reflexivity; try (simpl in Hle; lia).
  rewrite !xor_buffers_cons, bxor_involutive. f_equal.
  apply IH. simpl in Hle. lia.
Qed.

Lemma hex_digits_of_byte (x : byte) (r : string) :
  Buffer.from_hex
    (String (Buffer.hex_digit (Buffer.to_Z x / 16))
       (String (Buffer.hex_digit (Buffer.to_Z x mod 16)) r))
  = x :: Buffer.from_hex r.
Proof. destruct x; reflexivity. Qed.

(** [Buffer.from(buf.toString('hex'), 'hex')] gives the buffer back. *)
Lemma from_hex_to_hex (b : Buffer.t) : Buffer.from_hex (Buffer.to_hex b) = b.
Proof.
  induction b as [|x b IH]; [reflexivity |].
  cbn [Buffer.to_hex]. now rewrite hex_digits_of_byte, IH.
Qed.

Lemma to_string_of_string (s : string) :
  Buffer.to_string (Buffer.of_string s) = s.
Proof. apply string_of_list_byte_of_string. Qed.

(** ** C7: decryption undoes encryption *)

Section Mode.
Variable E : Z -> Z.

Lemma keystream_length (n : nat) (cb : Z) :
  length (GCM.keystream E n cb) = (16 * n)%nat.
Proof.
  revert cb. induction n as [|n IH]; intros cb; [reflexivity |].
  cbn [GCM.keystream]. rewrite length_app, of_number_length, IH. lia.
Qed.

Lemma gctr_length (icb : Z) (data : Buffer.t) :
  length (GCM.gctr E icb data) = length data.
Proof.
  unfold GCM.gctr. apply xor_buffers_length. rewrite keystream_length.
  pose proof (Nat.div_mod_eq (length data + 15) 16) as Hdiv.
  pose proof (Nat.mod_upper_bound (length data + 15) 16) as Hmod. lia.
Qed.

(** The counter mode is its own inverse. *)
Lemma gctr_involutive (icb : Z) (data : Buffer.t) :
  GCM.gctr E icb (GCM.gctr E icb data) = data.
Proof.
  unfold GCM.gctr at 1. rewrite gctr_length. unfold GCM.gctr.
  apply xor_buffers_involutive. rewrite keystream_length.
  pose proof (Nat.div_mod_eq (length data + 15) 16) as Hdiv.
  pose proof (Nat.mod_upper_bound (length data + 15) 16) as Hmod. lia.
Qed.

(** Whatever the block cipher and the IV, GCM decrypts what it encrypted. *)
Lemma gcm_decrypt_encrypt (iv p : Buffer.t) :
  GCM.decrypt E iv (fst (GCM.encrypt E iv p)) (snd (GCM.encrypt E iv p))
  = Some p.
Proof.
  unfold GCM.decrypt, GCM.encrypt. cbn [fst snd].
  rewrite decide_True by reflexivity. now rewrite gctr_involutive.
Qed.

Lemma tag_length (iv c : Buffer.t) : length (GCM.tag E iv c) = 16%nat.
Proof. unfold GCM.tag. apply of_number_length. Qed.
End Mode.

(** ** C1: tamper detection on the wallet balance *)

Lemma Wallet_dataToHash_balance env now now' (w : Wallet.t) (b : Z) :
  is_Some (Wallet.createdAt w) ->
  Wallet.hashInput env now w = Wallet.hashInput env now' (Wallet.set_balance w b) ->
  Wallet.balance w = b.
Proof.
  intros [t Ht]. unfold Wallet.hashInput, JS.concat_opt, Wallet.dataToHash.
  simpl. rewrite Ht. simpl.
  unfold JSON.obj, JSON.members, JSON.member.
  rewrite !string_app_assoc. intros H.
  repeat (apply (inj (String.append _)) in H).
  apply string_app_inv_tail in H.
  now apply (inj pretty) in H.
Qed.

Lemma Wallet_integrityHash_set_balance (w : Wallet.t) (b : Z) :
  Wallet.integrityHash (Wallet.set_balance w b) = Wallet.integrityHash w.
Proof. reflexivity. Qed.

Lemma Wallet_hashInput_restore env now now' (w : Wallet.t) (b : Z) :
  is_Some (Wallet.createdAt w) ->
  Wallet.hashInput env now
    (Wallet.set_balance (Wallet.set_balance w b) (Wallet.balance w))
  = Wallet.hashInput env now' w.
Proof.
  intros [t Ht]. unfold Wallet.hashInput, Wallet.dataToHash. simpl.
  now rewrite Ht.
Qed.




(** ** The monad of the services *)

Lemma M_bind_unfold {A B} (k : A -> M B) (m : M A) (w : World) :
  (m ≫= k) w
  = match m w with
    | (Ok a, w') => k a w'
    | (Throw e, w') => (Throw e, w')
    end.
Proof. reflexivity. Qed.

Lemma M_ret_unfold {A} (a : A) (w : World) : (mret a : M A) w = (Ok a, w).
Proof. reflexivity. Qed.

Lemma wp_run {A} (m : M A) (w w' : World) (r : Result A) Q :
  wp m w Q -> m w = (r, w') -> Q r w'.
Proof. unfold wp. intros HQ Hrun. now rewrite Hrun in HQ. Qed.

Lemma wp_bind {A B} (k : A -> M B) (m : M A) (w : World) Q :
  wp m w (fun r w1 =>
            match r with
            | Ok a => wp (k a) w1 Q
            | Throw e => Q (Throw e) w1
            end) ->
  wp (m ≫= k) w Q.
Proof.
  unfold wp. rewrite M_bind_unfold. now destruct (m w) as [[a|e] w1].
Qed.

Lemma wp_ret {A} (a : A) (w : World) Q : Q (Ok a) w -> wp (mret a) w Q.
Proof. exact id. Qed.

Lemma wp_throw {A} (e : Error) (w : World) (Q : Result A -> World -> Prop) :
  Q (Throw e) w -> wp (throw e) w Q.
Proof. exact id. Qed.

Lemma wp_lift {A} (r : Result A) (w : World) Q : Q r w -> wp (lift r) w Q.
Proof. exact id. Qed.

Lemma wp_getWorld (w : World) Q : Q (Ok w) w -> wp getWorld w Q.
Proof. exact id. Qed.

Lemma wp_putWorld (w w' : World) Q : Q (Ok tt) w' -> wp (putWorld w') w Q.
Proof. exact id. Qed.

Lemma wp_rethrowM {A} (f : Error -> Error) (m : M A) (w : World) Q :
  wp m w (fun r w1 => Q (rethrow f r) w1) -> wp (rethrowM f m) w Q.
Proof. unfold wp, rethrowM. now destruct (m w) as [[a|e] w1]. Qed.

Lemma wp_mono {A} (m : M A) (w : World) (Q Q' : Result A -> World -> Prop) :
  wp m w Q -> (forall r w1, Q r w1 -> Q' r w1) -> wp m w Q'.
Proof. unfold wp. auto. Qed.

Lemma wp_now oracle (w : World) Q :
  Q (Ok (clock oracle (ticks w)))
    {| wallets := wallets w; transactions := transactions w;
       draws := draws w; ticks := S (ticks w); writes := writes w |} ->
  wp (now oracle) w Q.
Proof. exact id. Qed.

Lemma wp_randomBytes oracle n (w : World) Q :
  Q (Ok (Buffer.of_number n (random oracle (draws w))))
    {| wallets := wallets w; transactions := transactions w;
       draws := S (draws w); ticks := ticks w; writes := writes w |} ->
  wp (randomBytes oracle n) w Q.
Proof. exact id. Qed.

Lemma wp_randomBelow oracle range (w : World) Q :
  Q (Ok (random oracle (draws w) mod range))
    {| wallets := wallets w; transactions := transactions w;
       draws := S (draws w); ticks := ticks w; writes := writes w |} ->
  wp (randomBelow oracle range) w Q.
Proof. exact id. Qed.

Lemma wp_commit oracle (w : World) Q :
  (forall r, r = Ok tt \/ r = Throw StorageFailure ->
             Q r {| wallets := wallets w; transactions := transactions w;
                    draws := draws w; ticks := ticks w;
                    writes := S (writes w) |}) ->
  wp (commit oracle) w Q.
Proof.
  intros HQ. unfold wp, commit.
  destruct (refuses oracle (writes w)); simpl; apply HQ; auto.
Qed.

(** One step through a service: open the next bind and run the effect. *)
#[global] Opaque wp.

Ltac wp_effect :=
  lazymatch goal with
  | |- wp (mret _) _ _ => apply wp_ret
  | |- wp (throw _) _ _ => apply wp_throw
  | |- wp (lift _) _ _ => apply wp_lift
  | |- wp getWorld _ _ => apply wp_getWorld
  | |- wp (putWorld _) _ _ => apply wp_putWorld
  | |- wp (now _) _ _ => apply wp_now
  | |- wp (randomBytes _ _) _ _ => apply wp_randomBytes
  | |- wp (randomBelow _ _) _ _ => apply wp_randomBelow
  end.
Ltac wp_step :=
  lazymatch goal with
  | |- wp (_ ≫= _) _ _ => apply wp_bind; wp_effect
  | |- _ => wp_effect
  end;
  cbn [wallets transactions draws ticks writes set_wallets set_transactions].

Lemma same_store_refl (w : World) : same_store w w.
Proof. now split. Qed.

#[local] Hint Resolve same_store_refl : core.

(** ** The models over the store *)

Lemma wp_Transaction_create env oracle (doc : Transaction.t) (w : World) Q :
  (forall e w1, same_store w w1 -> Q (Throw e) w1) ->
  (forall t,
      let doc' := TransactionModel.set_memo doc (JS.trim (Transaction.memo doc)) in
      let saved :=
        Transaction.stamp doc' t (Transaction.generateIntegrityHash env t doc') in
      TransactionModel.validate doc' = Ok tt ->
      Transaction.txId doc ∉ Transaction.txId <$> transactions w ->
      Q (Ok saved)
        {| wallets := wallets w; transactions := transactions w ++ [saved];
           draws := draws w; ticks := S (ticks w); writes := S (writes w) |}) ->
  wp (TransactionModel.create env oracle doc) w Q.
Proof.
  intros HF HS. unfold TransactionModel.create.
  apply wp_bind, wp_lift.
  destruct (TransactionModel.validate _) as [[]|e] eqn:Hv; [| now apply HF].
  wp_step. apply wp_bind, wp_commit. intros r [-> | ->];
    cbn [wallets transactions draws ticks writes]; [| now apply HF].
  wp_step. case_bool_decide as Hdup.
  - apply wp_throw, HF. now split.
  - wp_step. wp_step. now apply HS.
Qed.

Lemma wp_Wallet_save env oracle (walletId : ObjectId) (old new : Wallet.t)
    (w : World) Q :
  (forall e w1, same_store w w1 -> Q (Throw e) w1) ->
  (forall saved,
      Wallet.balance saved = Wallet.balance new ->
      Wallet.publicAddress saved = Wallet.publicAddress new ->
      WalletModel.validate new = Ok tt ->
      Q (Ok saved)
        {| wallets := <[walletId := saved]> (wallets w);
           transactions := transactions w;
           draws := draws w; ticks := S (ticks w); writes := S (writes w) |}) ->
  wp (WalletModel.save env oracle walletId old new) w Q.
Proof.
  intros HF HS. unfold WalletModel.save.
  apply wp_bind, wp_lift.
  destruct (WalletModel.validate new) as [[]|e] eqn:Hv; [| now apply HF].
  wp_step. apply wp_bind, wp_commit. intros r [-> | ->];
    cbn [wallets transactions draws ticks writes]; [| now apply HF].
  do 3 wp_step. apply HS; [| | reflexivity]; now case_bool_decide.
Qed.

Lemma wp_updateBalance env oracle (walletId : ObjectId) (amount : Z)
    (operation : WalletService.Operation) (w : World) Q :
  (forall e w1, same_store w w1 -> Q (Throw e) w1) ->
  (forall old saved,
      wallets w !! walletId = Some old ->
      Wallet.balance saved
      = match operation with
        | WalletService.subtract => Wallet.balance old - amount
        | WalletService.add => Wallet.balance old + amount
        end ->
      Wallet.publicAddress saved = Wallet.publicAddress old ->
      Q (Ok saved)
        {| wallets := <[walletId := saved]> (wallets w);
           transactions := transactions w;
           draws := draws w; ticks := S (S (ticks w));
           writes := S (writes w) |}) ->
  wp (WalletService.updateBalance env oracle walletId amount operation) w Q.
Proof.
  intros HF HS. unfold WalletService.updateBalance, WalletModel.findById.
  apply wp_bind. do 2 wp_step.
  destruct (wallets w !! walletId) as [old|] eqn:Hold; [| now apply wp_throw, HF].
  apply wp_bind.
  assert (Hgo : forall b,
             b = match operation with
                 | WalletService.subtract => Wallet.balance old - amount
                 | WalletService.add => Wallet.balance old + amount
                 end ->
             wp (t ← now oracle;
                 WalletModel.save env oracle walletId old
                   (Wallet.touch (Wallet.set_balance old b) t)) w Q).
  { intros b Hb. wp_step. apply wp_Wallet_save.
    - intros e w1 [Hw Ht]. apply HF. now split.
    - intros saved Hbal Haddr _.
      apply (HS old saved); [reflexivity | now rewrite Hbal, Hb | exact Haddr]. }
  destruct operation.
  - destruct (Wallet.balance old <? amount); [now apply wp_throw, HF |].
    apply wp_ret. now apply Hgo.
  - apply wp_ret. now apply Hgo.
Qed.

Lemma wp_generateChainHash (walletId : ObjectId) (w : World) Q :
  Q (Ok (Transaction.integrityHash
           <$> TransactionModel.latest None
                 (TransactionModel.of_wallet walletId (transactions w)))) w ->
  wp (TransactionModel.generateChainHash walletId) w Q.
Proof. intros HQ. unfold TransactionModel.generateChainHash. now do 2 wp_step. Qed.

Lemma wp_generateTxId oracle (w : World) Q :
  Q (Ok (Buffer.to_hex (Buffer.of_number 32 (random oracle (draws w)))))
    {| wallets := wallets w; transactions := transactions w;
       draws := S (draws w); ticks := ticks w; writes := writes w |} ->
  wp (TransactionModel.generateTxId oracle) w Q.
Proof. intros HQ. unfold TransactionModel.generateTxId. now do 2 wp_step. Qed.

Lemma wp_generateRandomBytes oracle n (w : World) Q :
  Q (Ok (Buffer.to_hex (Buffer.of_number n (random oracle (draws w)))))
    {| wallets := wallets w; transactions := transactions w;
       draws := S (draws w); ticks := ticks w; writes := writes w |} ->
  wp (CryptoService.generateRandomBytes oracle n) w Q.
Proof. intros HQ. unfold CryptoService.generateRandomBytes. now do 2 wp_step. Qed.

Lemma wp_findActive (walletId userId : ObjectId) (w : World) Q :
  Q (Ok (match wallets w !! walletId with
         | Some x =>
             if bool_decide (Wallet.user x = userId /\ Wallet.status x = active)
             then Some x else None
         | None => None
         end)) w ->
  wp (WalletModel.findActive walletId userId) w Q.
Proof. intros HQ. unfold WalletModel.findActive. now do 2 wp_step. Qed.

Lemma wp_getWalletByAddress (address : string) (w : World) Q :
  Q (Ok (List.find
           (fun p => bool_decide (Wallet.publicAddress (snd p) = address))
           (map_to_list (wallets w)))) w ->
  wp (WalletService.getWalletByAddress address) w Q.
Proof.
  intros HQ. unfold WalletService.getWalletByAddress, WalletModel.findByAddress.
  now do 2 wp_step.
Qed.

(** ** C7 at the service: encryptPrivateKey and decryptPrivateKey *)

Arguments aes_256_gcm_encrypt : simpl never.
Arguments aes_256_gcm_decrypt : simpl never.

Lemma wp_encryptPrivateKey env oracle (k : string) (w : World) Q :
  (forall e w1, same_store w w1 -> Q (Throw e) w1) ->
  (forall key,
      CryptoService.getEncryptionKey env = Ok key ->
      let iv := Buffer.of_number CryptoService.ivLength (random oracle (draws w)) in
      let sealed := aes_256_gcm_encrypt key iv (Buffer.of_string k) in
      Q (Ok {| CryptoService.encryptedData := Buffer.to_hex (fst sealed);
               CryptoService.iv := Buffer.to_hex iv;
               CryptoService.authTag := Buffer.to_hex (snd sealed) |})
        {| wallets := wallets w; transactions := transactions w;
           draws := S (draws w); ticks := ticks w; writes := writes w |}) ->
  wp (CryptoService.encryptPrivateKey env oracle k) w Q.
Proof.
  intros HF HS. unfold CryptoService.encryptPrivateKey.
  apply wp_rethrowM, wp_bind, wp_lift.
  destruct (CryptoService.getEncryptionKey env) as [key|e] eqn:Hkey;
    [| now apply HF].
  wp_step. specialize (HS key eq_refl). cbn zeta in HS.
  destruct (aes_256_gcm_encrypt _ _ _) as [encrypted authTag].
  apply wp_ret. exact HS.
Qed.

(** C7. For every private key k and every IV the random source supplies,
    decrypting what encryptPrivateKey returned gives k back. *)
Theorem decrypt_encrypt_roundtrip env oracle (k : string) (w w' : World)
    (e : CryptoService.Encrypted) :
  CryptoService.encryptPrivateKey env oracle k w = (Ok e, w') ->
  CryptoService.decryptPrivateKey env
    (Some (CryptoService.encryptedData e)) (Some (CryptoService.iv e))
    (Some (CryptoService.authTag e))
  = Ok k.
Proof.
  intros Hrun.
  cut (wp (CryptoService.encryptPrivateKey env oracle k) w
         (fun r _ =>
            match r with
            | Ok e =>
                CryptoService.decryptPrivateKey env
                  (Some (CryptoService.encryptedData e))
                  (Some (CryptoService.iv e))
                  (Some (CryptoService.authTag e)) = Ok k
            | Throw _ => True
            end)).
  { intros Hwp. exact (wp_run _ _ _ _ _ Hwp Hrun). }
  apply wp_encryptPrivateKey; [easy |].
  intros key Hkey iv sealed.
  cbn [CryptoService.encryptedData CryptoService.iv CryptoService.authTag].
  unfold CryptoService.decryptPrivateKey. rewrite Hkey.
  rewrite !from_hex_to_hex.
  assert (Hiv : Nat.eqb (length iv) 0 = false)
    by (subst iv; now rewrite of_number_length).
  assert (Htag : Nat.eqb (length (snd sealed)) CryptoService.authTagLength = true)
    by (subst sealed; unfold aes_256_gcm_encrypt, GCM.encrypt; cbn [snd];
        now rewrite tag_length).
  assert (Hopen : aes_256_gcm_decrypt key iv (fst sealed) (snd sealed)
                  = Some (Buffer.of_string k))
    by (subst sealed; apply gcm_decrypt_encrypt).
  cbn [mbind Result_bind mret Result_ret].
  rewrite Hiv, Htag. cbn [negb]. rewrite Hopen.
  cbn [rethrow]. now rewrite to_string_of_string.
Qed.

(** ** The outcomes of createTransaction *)

Ltac wp_go :=
  lazymatch goal with
  | |- wp (_ ≫= _) _ _ => apply wp_bind
  | |- _ => idtac
  end;
  lazymatch goal with
  | |- wp (TransactionModel.generateTxId _) _ _ => apply wp_generateTxId
  | |- wp (TransactionModel.generateChainHash _) _ _ => apply wp_generateChainHash
  | |- wp (CryptoService.generateRandomBytes _ _) _ _ =>
      apply wp_generateRandomBytes
  | |- wp (WalletModel.findActive _ _) _ _ => apply wp_findActive
  | |- wp (WalletService.getWalletByAddress _) _ _ => apply wp_getWalletByAddress
  | |- _ => wp_effect
  end;
  cbn [wallets transactions draws ticks writes set_wallets set_transactions].

Section Send.
Context `{Curve} `{AddressCodec}.
Variable env : Env.
Variable oracle : Oracle.

Import TransactionService.

(** Every way a send can end. Nothing is written before the send record;
    then come the debit of the sender, the receive record and the credit
    of the recipient, and a failure keeps what was written before it. *)
Lemma wp_createTransaction (p : Params) (w : World) Q :
  (forall e w1, same_store w w1 -> Q (Throw e) w1) ->
  (forall s key tx,
      wallets w !! walletId p = Some s ->
      Wallet.user s = userId p ->
      Wallet.status s = active ->
      CryptoService.validateAddress env (toAddress p) = true ->
      Wallet.publicAddress s <> toAddress p ->
      amount p + fee <= Wallet.balance s ->
      signingKeyFor env p s = Ok key ->
      sendRecord oracle p s w tx ->
      (forall e w1,
          wallets w1 = wallets w ->
          transactions w1 = transactions w ++ [tx] ->
          Q (Throw e) w1)
      /\ (forall s',
             Wallet.balance s' = Wallet.balance s - (amount p + fee) ->
             Wallet.publicAddress s' = Wallet.publicAddress s ->
             let ws := <[walletId p := s']> (wallets w) in
             match List.find
                     (fun x => bool_decide
                                 (Wallet.publicAddress (snd x) = toAddress p))
                     (map_to_list ws) with
             | None =>
                 forall w1,
                   wallets w1 = ws ->
                   transactions w1 = transactions w ++ [tx] ->
                   Q (Ok (receiptFor p s tx)) w1
             | Some (rid, r) =>
                 ws !! rid = Some r ->
                 Wallet.publicAddress r = toAddress p ->
                 (forall e w1,
                     wallets w1 = ws ->
                     transactions w1 = transactions w ++ [tx] ->
                     Q (Throw e) w1)
                 /\ (forall rx,
                        receiveRecord p tx rid r w rx ->
                        (forall e w1,
                            wallets w1 = ws ->
                            transactions w1 = transactions w ++ [tx; rx] ->
                            Q (Throw e) w1)
                        /\ (forall r' w1,
                               Wallet.balance r' = Wallet.balance r + amount p ->
                               wallets w1 = <[rid := r']> ws ->
                               transactions w1 = transactions w ++ [tx; rx] ->
                               Q (Ok (receiptFor p s tx)) w1))
             end)) ->
  wp (createTransaction env oracle p) w Q.
Proof.
  intros HF HS. unfold createTransaction. wp_go.
  destruct (wallets w !! walletId p) as [s|] eqn:Hs; [| now apply wp_throw, HF].
  case_bool_decide as Hown; [| now apply wp_throw, HF].
  destruct Hown as [Huser Hstatus].
  destruct (CryptoService.validateAddress env (toAddress p)) eqn:Hvalid;
    [| now apply wp_throw, HF].
  cbn [negb]. destruct (decide _) as [|Hself]; [now apply wp_throw, HF |].
  destruct (Z.ltb_spec (Wallet.balance s) (amount p + fee)) as [|Hfunds];
    [now apply wp_throw, HF |].
  wp_go. destruct (signingKeyFor env p s) as [key|e] eqn:Hkey;
    [| now apply HF].
  unfold recordAndSettle. do 3 wp_go.
  wp_go. destruct (CryptoService.signTransaction _ _) as [sig|e];
    [| apply HF; now split].
  do 3 wp_go.
  apply wp_bind, wp_Transaction_create.
  { intros e w1 [Hw Ht]. apply HF. now split. }
  intros t doc' tx Hvalidate Hfresh.
  cbn [wallets transactions draws ticks writes].
  specialize (HS s key tx eq_refl Huser Hstatus eq_refl Hself Hfunds Hkey).
  destruct HS as [HF1 HS].
  { repeat split; try reflexivity; [now eexists | exact Hfresh]. }
  apply wp_bind, wp_updateBalance.
  { intros e w1 [Hw Ht]. now apply HF1. }
  intros old s' Hold Hbal Haddr.
  cbn [wallets transactions draws ticks writes] in *.
  rewrite Hs in Hold. injection Hold as <-.
  specialize (HS s' Hbal Haddr). cbn zeta in HS.
  wp_go.
  destruct (List.find _ _) as [[rid r]|] eqn:Hfind; cycle 1.
  { do 2 wp_go. now apply HS. }
  apply find_some in Hfind as [Hin Hr].
  apply bool_decide_eq_true in Hr. cbn [snd] in Hr.
  apply list_elem_of_In, elem_of_map_to_list in Hin.
  destruct (HS Hin Hr) as [HF2 HS2]. clear HS.
  apply wp_bind. do 2 wp_go.
  apply wp_bind, wp_Transaction_create.
  { intros e w1 [Hw Ht]. now apply HF2. }
  intros t' rdoc' rx Hrvalid Hrfresh.
  cbn [wallets transactions draws ticks writes] in *.
  destruct (HS2 rx) as [HF3 HS3].
  { repeat split; try reflexivity; [now eexists | exact Hrfresh]. }
  apply wp_bind, wp_updateBalance.
  { intros e w1 [Hw Ht]. apply HF3; [exact Hw |].
    rewrite Ht. now rewrite <- app_assoc. }
  intros old r' Hold Hbal' _.
  cbn [wallets transactions draws ticks writes] in *.
  rewrite Hin in Hold. injection Hold as <-.
  do 2 wp_go. apply (HS3 r'); [exact Hbal' | reflexivity |].
  cbn [transactions]. now rewrite <- app_assoc.
Qed.

Lemma createTransaction_outcome (p : Params) (w w' : World) r :
  createTransaction env oracle p w = (r, w') -> Outcome env oracle p w r w'.
Proof.
  apply wp_run, wp_createTransaction.
  - intros e w1 Hsame. now apply NothingWritten.
  - intros s key tx Hs Hu Hst Hv Hself Hfunds Hkey Htx.
    assert (Hacc : accepted env p w s key) by (repeat split; assumption).
    split; [intros e w1 Hw Ht; eapply SendRecordOnly; eassumption |].
    intros s' Hbal Haddr ws.
    assert (Hdeb : debited p s s') by now split.
    fold (lookupAddress ws (toAddress p)).
    destruct (lookupAddress ws (toAddress p)) as [[rid r0]|] eqn:Hfind.
    + intros Hr Hra.
      split; [intros e w1 Hw Ht; eapply DebitOnly; eassumption |].
      intros rx Hrx.
      split; [intros e w1 Hw Ht; eapply CreditMissing; eassumption |].
      intros r' w1 Hbal' Hw Ht. eapply SentHome; eassumption.
    + intros w1 Hw Ht. eapply SentAbroad; eassumption.
Qed.

Lemma lookupAddress_None (ws : gmap ObjectId Wallet.t) (a : string) i x :
  lookupAddress ws a = None ->
  ws !! i = Some x -> Wallet.publicAddress x <> a.
Proof.
  intros Hnone Hi Ha.
  apply elem_of_map_to_list, list_elem_of_In in Hi.
  apply (find_none _ _ Hnone) in Hi. cbn [snd] in Hi.
  now apply bool_decide_eq_false in Hi.
Qed.



Lemma sendRecord_bornConfirmed p s w tx :
  sendRecord oracle p s w tx -> bornConfirmed tx.
Proof. intros (_ & _ & _ & ? & _ & _ & _ & ? & ? & _). now split. Qed.

Lemma receiveRecord_bornConfirmed p tx rid r w rx :
  receiveRecord p tx rid r w rx -> bornConfirmed rx.
Proof. intros (_ & _ & _ & ? & _ & _ & _ & ? & ? & _). now split. Qed.

(** C10. Whatever way a send ends, the transaction records it has
    persisted are confirmed, with six confirmations and confirmedAt set:
    no pending record is ever persisted. A successful send has written
    the send record of its receipt, followed by at most the mirrored
    receive record. *)
Theorem send_records_born_confirmed (p : Params) (w w' : World) r :
  createTransaction env oracle p w = (r, w') ->
  exists written,
    transactions w' = transactions w ++ written
    /\ Forall bornConfirmed written
    /\ (forall receipt,
          r = Ok receipt ->
          Transaction.type (transaction receipt) = send
          /\ (written = [transaction receipt]
              \/ exists rx, written = [transaction receipt; rx]
                            /\ Transaction.type rx = receive)).
Proof.
  intros Hrun. apply createTransaction_outcome in Hrun.
  inversion Hrun as
    [ e w1 [Hw Ht]
    | e w1 s key tx Hacc Htx Hw Ht
    | e w1 s key tx s' rid0 r0 Hacc Htx Hdeb Hr0 Hra0 Hw Ht
    | e w1 s key tx s' rid0 r0 rx Hacc Htx Hdeb Hr0 Hra0 Hrx Hw Ht
    | w1 s key tx s' Hacc Htx Hdeb Hnone Hw Ht
    | w1 s key tx s' rid0 r0 rx r' Hacc Htx Hdeb Hr0 Hra0 Hrx Hbal' Hw Ht ];
    subst; clear Hrun.
  - exists []. rewrite app_nil_r. split_and!; [assumption | constructor |].
    intros receipt [=].
  - exists [tx]. split_and!; [assumption | | intros receipt [=]].
    repeat constructor; eapply sendRecord_bornConfirmed; eassumption.
  - exists [tx]. split_and!; [assumption | | intros receipt [=]].
    repeat constructor; eapply sendRecord_bornConfirmed; eassumption.
  - exists [tx; rx]. split_and!; [assumption | | intros receipt [=]].
    constructor; [eapply sendRecord_bornConfirmed; eassumption |].
    constructor; [eapply receiveRecord_bornConfirmed; eassumption |].
    constructor.
  - exists [tx]. split_and!; [assumption | |].
    + repeat constructor; eapply sendRecord_bornConfirmed; eassumption.
    + intros receipt [= <-]. split; [apply Htx | now left].
  - exists [tx; rx]. split_and!; [assumption | |].
    + constructor; [eapply sendRecord_bornConfirmed; eassumption |].
      constructor; [eapply receiveRecord_bornConfirmed; eassumption |].
      constructor.
    + intros receipt [= <-]. split; [apply Htx |].
      right. exists rx. split; [reflexivity | apply Hrx].
Qed.


(** C9 (as the code has it). The id of the send record is the next draw of
    the random source, 32 bytes written as 64 hexadecimal digits; the id of
    the mirrored receive record is not drawn: it is the id of the send
    record followed by "-receive". The ids of the stored transactions stay
    pairwise different, since the unique index refuses a second use. *)
Theorem transaction_ids (p : Params) (w w' : World) r :
  unique_txIds (transactions w) ->
  createTransaction env oracle p w = (r, w') ->
  unique_txIds (transactions w')
  /\ exists written,
      transactions w' = transactions w ++ written
      /\ (written = []
          \/ exists tx,
              Transaction.type tx = send
              /\ Transaction.txId tx
                 = Buffer.to_hex (Buffer.of_number 32 (random oracle (draws w)))
              /\ String.length (Transaction.txId tx) = 64%nat
              /\ (written = [tx]
                  \/ exists rx,
                      written = [tx; rx]
                      /\ Transaction.type rx = receive
                      /\ Transaction.txId rx
                         = Transaction.txId tx +:+ "-receive")).
Proof.
  intros Huniq Hrun. apply createTransaction_outcome in Hrun.
  assert (Hone : forall s tx,
             sendRecord oracle p s w tx ->
             unique_txIds (transactions w ++ [tx])
             /\ Transaction.type tx = send
             /\ Transaction.txId tx
                = Buffer.to_hex (Buffer.of_number 32 (random oracle (draws w)))
             /\ String.length (Transaction.txId tx) = 64%nat).
  { intros s tx (_ & Hid & Hty & _ & _ & _ & _ & _ & _ & Hfresh).
    split_and!; try assumption.
    - unfold unique_txIds in *. rewrite fmap_app. apply NoDup_app.
      split_and!; [assumption | | apply NoDup_singleton].
      intros x Hx ->%list_elem_of_singleton. contradiction.
    - rewrite Hid, to_hex_length, of_number_length. reflexivity. }
  assert (Htwo : forall s tx rid r0 rx,
             sendRecord oracle p s w tx -> receiveRecord p tx rid r0 w rx ->
             unique_txIds (transactions w ++ [tx; rx])
             /\ Transaction.type rx = receive
             /\ Transaction.txId rx = Transaction.txId tx +:+ "-receive").
  { intros s tx rid r0 rx Htx (_ & Hid & Hty & _ & _ & _ & _ & _ & _ & Hfresh).
    split_and!; try assumption.
    destruct (Hone s tx Htx) as (Hu & _).
    unfold unique_txIds in *.
    change [tx; rx] with ([tx] ++ [rx]). rewrite app_assoc, fmap_app.
    apply NoDup_app. split_and!; [assumption | | apply NoDup_singleton].
    intros x Hx ->%list_elem_of_singleton. contradiction. }
  inversion Hrun as
    [ e w1 [Hw Ht]
    | e w1 s key tx Hacc Htx Hw Ht
    | e w1 s key tx s' rid0 r0 Hacc Htx Hdeb Hr0 Hra0 Hw Ht
    | e w1 s key tx s' rid0 r0 rx Hacc Htx Hdeb Hr0 Hra0 Hrx Hw Ht
    | w1 s key tx s' Hacc Htx Hdeb Hnone Hw Ht
    | w1 s key tx s' rid0 r0 rx r' Hacc Htx Hdeb Hr0 Hra0 Hrx Hbal' Hw Ht ];
    subst; clear Hrun; rewrite Ht.
  - split; [assumption |]. exists []. rewrite app_nil_r. auto.
  - destruct (Hone s tx Htx) as (? & ? & ? & ?). split; [assumption |].
    exists [tx]. split; [reflexivity |]. right. exists tx. auto.
  - destruct (Hone s tx Htx) as (? & ? & ? & ?). split; [assumption |].
    exists [tx]. split; [reflexivity |]. right. exists tx. auto.
  - destruct (Hone s tx Htx) as (? & ? & ? & ?).
    destruct (Htwo s tx rid0 r0 rx Htx Hrx) as (? & ? & ?).
    split; [assumption |].
    exists [tx; rx]. split; [reflexivity |]. right. exists tx.
    split_and!; try assumption. right. exists rx. auto.
  - destruct (Hone s tx Htx) as (? & ? & ? & ?). split; [assumption |].
    exists [tx]. split; [reflexivity |]. right. exists tx. auto.
  - destruct (Hone s tx Htx) as (? & ? & ? & ?).
    destruct (Htwo s tx rid0 r0 rx Htx Hrx) as (? & ? & ?).
    split; [assumption |].
    exists [tx; rx]. split; [reflexivity |]. right. exists tx.
    split_and!; try assumption. right. exists rx. auto.
Qed.

End Send.

(** ** C2: the report of verifyTransactionChain *)

Section Chain.
Variable env : Env.
Variable oracle : Oracle.

Abbreviation verifyLoop := (TransactionService.verifyLoop env oracle).
Abbreviation entriesFrom := (TransactionService.entriesFrom env).
Abbreviation entryOf := (TransactionService.entryOf env).
Abbreviation untampered := (TransactionService.untampered env).
Abbreviation intact := (TransactionService.intact env).
Abbreviation dated := TransactionService.dated.
Abbreviation from_tip := TransactionService.from_tip.
Abbreviation passes := TransactionService.passes.

Lemma verifyLoop_entries (txs : list Transaction.t) :
  dated txs ->
  forall results previousHash chainValid w,
    verifyLoop txs results previousHash chainValid w
    = (Ok (results ++ entriesFrom previousHash txs,
           chainValid
           && forallb TransactionService.entryValid
                (entriesFrom previousHash txs)), w).
Proof.
  induction 1 as [|tx rest [t Ht] _ IH]; intros results previousHash chainValid w.
  - simpl. rewrite M_ret_unfold, app_nil_r, andb_true_r. reflexivity.
  - simpl TransactionService.verifyLoop. rewrite M_bind_unfold.
    unfold TransactionModel.verifyIntegrity. rewrite Ht, M_ret_unfold.
    rewrite IH. simpl entriesFrom. simpl forallb.
    unfold TransactionService.entryOf, TransactionService.entryValid at 2.
    rewrite Ht. simpl. fold (TransactionService.linkValid previousHash tx).
    rewrite <- app_assoc. simpl. do 3 f_equal.
    destruct (Transaction.verifyIntegrity env t tx),
      (TransactionService.linkValid previousHash tx), chainValid;
      reflexivity.
Qed.

Lemma from_tip_None (txs : list Transaction.t) :
  from_tip None txs = TransactionService.tip txs.
Proof. unfold TransactionService.from_tip, TransactionService.tip.
  now destruct (last txs). Qed.

Lemma from_tip_cons p tx (txs : list Transaction.t) :
  from_tip p (tx :: txs) = from_tip (Some (Transaction.integrityHash tx)) txs.
Proof.
  unfold TransactionService.from_tip. destruct txs as [|y r]; [reflexivity |].
  rewrite last_cons. now destruct (last (y :: r)).
Qed.

Lemma entriesFrom_app (a b : list Transaction.t) p :
  entriesFrom p (a ++ b) = entriesFrom p a ++ entriesFrom (from_tip p a) b.
Proof.
  revert p. induction a as [|tx a IH]; intros p; [reflexivity |].
  simpl. rewrite IH. now rewrite from_tip_cons.
Qed.

Lemma entriesFrom_length (l : list Transaction.t) p :
  length (entriesFrom p l) = length l.
Proof. revert p. induction l; intros; simpl; auto. Qed.

Lemma linked_app (a b : list Transaction.t) p :
  TransactionService.linked p (a ++ b)
  <-> TransactionService.linked p a
      /\ TransactionService.linked (from_tip p a) b.
Proof.
  revert p. induction a as [|tx a IH]; intros p.
  - simpl. unfold TransactionService.from_tip. simpl. tauto.
  - simpl. rewrite IH, from_tip_cons. tauto.
Qed.

Lemma intact_integrityValid tx p :
  intact tx -> TransactionService.integrityValid (entryOf p tx) = true.
Proof. intros (t & Ht & Hv). simpl. now rewrite Ht. Qed.

Lemma linked_linkValid tx p :
  Transaction.previousTxHash tx = p -> TransactionService.linkValid p tx = true.
Proof.
  intros <-. unfold TransactionService.linkValid.
  destruct (Transaction.previousTxHash tx); [now apply bool_decide_eq_true |
    reflexivity].
Qed.

Lemma entriesFrom_pass (l : list Transaction.t) p :
  Forall intact l -> TransactionService.linked p l ->
  Forall passes (entriesFrom p l).
Proof.
  intros Hi. revert p. induction Hi as [|tx l Htx _ IH]; intros p Hl.
  - constructor.
  - destruct Hl as [Hp Hl]. simpl. constructor; [| now apply IH].
    split; [now apply intact_integrityValid | now apply linked_linkValid].
Qed.

Lemma passes_entryValid (l : list TransactionService.ChainEntry) :
  Forall passes l -> forallb TransactionService.entryValid l = true.
Proof.
  induction 1 as [|e l [Hi Hl] _ IH]; [reflexivity |].
  simpl. unfold TransactionService.entryValid at 1. now rewrite Hi, Hl, IH.
Qed.

Lemma intact_dated (l : list Transaction.t) : Forall intact l -> dated l.
Proof.
  unfold TransactionService.dated. intros Hi.
  eapply Forall_impl; [exact Hi |].
  intros tx (t & Ht & _). now exists t.
Qed.

(** An untampered history is reported valid line by line and overall. *)
Lemma untampered_report (txs : list Transaction.t) w :
  untampered txs ->
  exists report,
    verifyLoop txs [] None true w = (Ok (report, true), w)
    /\ length report = length txs
    /\ Forall passes report.
Proof.
  intros [Hi Hl]. exists (entriesFrom None txs).
  rewrite verifyLoop_entries by now apply intact_dated.
  pose proof (entriesFrom_pass txs None Hi Hl) as Hp.
  rewrite (passes_entryValid _ Hp). simpl.
  split; [reflexivity | split; [apply entriesFrom_length | exact Hp]].
Qed.

End Chain.


(** ** C6: what wallet creation stores of the private key *)

Section Creation.
Context `{Curve} `{AddressCodec}.
Variable env : Env.
Variable oracle : Oracle.

Lemma wp_makeRandom (fuel : nat) (w : World) Q :
  (forall e w1, same_store w w1 -> Q (Throw e) w1) ->
  (forall d w1,
      same_store w w1 ->
      ECDSA.isPrivate d = true ->
      Q (Ok {| ECPair.privateKey := Some d;
               ECPair.publicKey :=
                 encode_point (ECDSA.smul (Buffer.to_number d) G) |}) w1) ->
  wp (CryptoService.makeRandom oracle fuel) w Q.
Proof.
  revert w. induction fuel as [| fuel IH]; intros w HF HS;
    cbn [CryptoService.makeRandom].
  - apply wp_throw, HF, same_store_refl.
  - wp_step.
    destruct (ECDSA.isPrivate _) eqn:Hd.
    + apply wp_lift. unfold ECPair.fromPrivateKey. rewrite Hd.
      apply HS; [now split | assumption].
    + apply IH; intros; [apply HF | apply HS]; assumption.
Qed.

Lemma wp_generateKeyPair (w : World) Q :
  (forall e w1, same_store w w1 -> Q (Throw e) w1) ->
  (forall d w1,
      same_store w w1 ->
      ECDSA.isPrivate d = true ->
      let pub := encode_point (ECDSA.smul (Buffer.to_number d) G) in
      Q (Ok {| CryptoService.privateKey := Buffer.to_hex d;
               CryptoService.privateKeyWIF :=
                 toWIF (CryptoService.getNetwork env) d;
               CryptoService.publicKey := Buffer.to_hex pub;
               CryptoService.address := p2pkh (CryptoService.getNetwork env) pub;
               CryptoService.network := CryptoService.networkType env |}) w1) ->
  wp (CryptoService.generateKeyPair env oracle) w Q.
Proof.
  intros HF HS. unfold CryptoService.generateKeyPair.
  apply wp_rethrowM, wp_bind, wp_makeRandom.
  - intros e w1 Hw. now apply HF.
  - intros d w1 Hw Hd. cbn [ECPair.privateKey ECPair.publicKey].
    wp_step. wp_step. now apply HS.
Qed.

Lemma wp_Wallet_create (d : WalletModel.Data) (w : World) Q :
  (forall e w1, same_store w w1 -> Q (Throw e) w1) ->
  (forall doc id w1,
      WalletModel.cast d (clock oracle (ticks w)) = Ok doc ->
      wallets w !! id = None ->
      let saved := WalletModel.presave env doc (clock oracle (S (ticks w))) in
      wallets w1 = <[id := saved]> (wallets w) ->
      transactions w1 = transactions w ->
      Q (Ok (id, saved)) w1) ->
  wp (WalletModel.create env oracle d) w Q.
Proof.
  intros HF HS. unfold WalletModel.create.
  wp_step. apply wp_bind, wp_lift.
  destruct (WalletModel.cast d _) as [doc | e] eqn:Hcast; [| now apply HF].
  apply wp_bind, wp_lift.
  destruct (WalletModel.validate doc) as [[] | e]; [| now apply HF].
  wp_step. apply wp_bind, wp_commit. intros r [-> | ->];
    cbn [wallets transactions draws ticks writes]; [| now apply HF].
  wp_step. case_bool_decide as Hdup.
  - apply wp_throw, HF. now split.
  - wp_step. wp_step. apply (HS doc); try reflexivity; try assumption.
    apply not_elem_of_dom, is_fresh.
Qed.

Import WalletService.

Lemma cast_walletData (p : CreateParams) (address publicKey network color : string)
    (encrypted : option CryptoService.Encrypted) (t0 : Date) (doc : Wallet.t) :
  WalletModel.cast (walletData p address publicKey network color encrypted) t0
  = Ok doc ->
  StorageType_parse (storageType_of p) = Some (Wallet.storageType doc)
  /\ Wallet.encryptedPrivateKey doc = CryptoService.encryptedData <$> encrypted
  /\ Wallet.iv (Wallet.encryptionMeta doc)
     = encrypted ≫= (fun e => Some (CryptoService.iv e))
  /\ Wallet.authTag (Wallet.encryptionMeta doc)
     = encrypted ≫= (fun e => Some (CryptoService.authTag e)).
Proof.
  unfold WalletModel.cast. cbn [walletData WalletModel.d_storageType
    WalletModel.d_network WalletModel.d_encryptedPrivateKey
    WalletModel.d_encryptionMeta].
  destruct (StorageType_parse (storageType_of p)) as [st |]; [| discriminate].
  destruct (Network_parse network) as [net |]; [| discriminate].
  intros [= <-]. cbn. now destruct encrypted.
Qed.

Lemma presave_fields (doc : Wallet.t) (t : Date) :
  let saved := WalletModel.presave env doc t in
  Wallet.storageType saved = Wallet.storageType doc
  /\ Wallet.encryptedPrivateKey saved = Wallet.encryptedPrivateKey doc
  /\ Wallet.encryptionMeta saved = Wallet.encryptionMeta doc.
Proof. now split_and!. Qed.

Lemma StorageType_parse_hot (s : string) :
  StorageType_parse s = Some hot <-> s = "hot".
Proof.
  unfold StorageType_parse. repeat case_decide; subst; split; congruence.
Qed.

Lemma StorageType_parse_cold (s : string) :
  StorageType_parse s = Some cold <-> s = "cold".
Proof.
  unfold StorageType_parse. repeat case_decide; subst; split; congruence.
Qed.


End Creation.

(** ** Numbers as buffers *)

Lemma to_number_snoc (b : Buffer.t) (x : byte) :
  Buffer.to_number (b ++ [x]) = 256 * Buffer.to_number b + Buffer.to_Z x.
Proof. unfold Buffer.to_number. now rewrite fold_left_app. Qed.

Lemma to_Z_of_Z_mod (z : Z) : Buffer.to_Z (Buffer.of_Z z) = z mod 256.
Proof.
  assert (Buffer.of_Z z = Buffer.of_Z (z mod 256)) as ->.
  { unfold Buffer.of_Z. now rewrite Z.mod_mod by lia. }
  apply to_Z_of_Z. apply Z.mod_pos_bound. lia.
Qed.

Lemma to_number_of_number (n : nat) (z : Z) :
  Buffer.to_number (Buffer.of_number n z) = z mod 256 ^ Z.of_nat n.
Proof.
  revert z. induction n as [|n IH]; intros z.
  - cbn. now rewrite Z.mod_1_r.
  - cbn [Buffer.of_number]. rewrite to_number_snoc, IH, to_Z_of_Z_mod.
    rewrite Nat2Z.inj_succ, Z.pow_succ_r by lia.
    assert (0 < 256 ^ Z.of_nat n) by (apply Z.pow_pos_nonneg; lia).
    rewrite Z.rem_mul_r by lia. lia.
Qed.

Lemma to_number_of_number_32 (z : Z) :
  0 <= z < 2 ^ 256 -> Buffer.to_number (Buffer.of_number 32 z) = z.
Proof.
  intros Hz. rewrite to_number_of_number. apply Z.mod_small.
  change (256 ^ Z.of_nat 32) with (2 ^ 256). exact Hz.
Qed.

(** ** Arithmetic modulo a prime *)
Section Modular.
Variable n : Z.
Hypothesis n_prime : Z.prime n.

Lemma mul_mod_compat (a a' b b' : Z) :
  a mod n = a' mod n -> b mod n = b' mod n -> (a * b) mod n = (a' * b') mod n.
Proof.
  intros Ha Hb. pose proof (Z.prime_ge_2 _ n_prime).
  rewrite (Z.mul_mod a b), (Z.mul_mod a' b'), Ha, Hb by lia. reflexivity.
Qed.

(** The verifier's combination of the two halves of a signature gives the
    nonce back, up to the sign [c] that the low-S rule may have applied. *)
Lemma recover_nonce (k e d r s t c : Z) :
  (s * k) mod n = (e + d * r) mod n ->
  t mod n = (c * s) mod n ->
  (c * c) mod n = 1 mod n ->
  t mod n <> 0 ->
  ((e * Z.invmod t n) mod n + (r * Z.invmod t n) mod n * d) mod n
  = (c * k) mod n.
Proof.
  intros Hs Ht Hc Hinv. pose proof (Z.prime_ge_2 _ n_prime) as Hn.
  set (i := Z.invmod t n).
  assert (Hi : (i * t) mod n = 1 mod n).
  { unfold i. rewrite Z.invmod_prime by assumption. now rewrite Z.mod_small by lia. }
  rewrite Zplus_mod_idemp_l.
  rewrite Z.add_mod, (Z.mul_mod_idemp_l (r * i) d n), <- Z.add_mod by lia.
  replace (e * i + r * i * d) with (i * (e + d * r)) by ring.
  rewrite (mul_mod_compat i i (e + d * r) (s * k) eq_refl (eq_sym Hs)).
  replace (i * (s * k)) with (1 * (i * s * k)) by ring.
  rewrite (mul_mod_compat 1 (c * c) (i * s * k) (i * s * k) (eq_sym Hc) eq_refl).
  replace (c * c * (i * s * k)) with (i * (c * s) * (c * k)) by ring.
  rewrite (mul_mod_compat (i * (c * s)) (i * t) (c * k) (c * k)
             (mul_mod_compat i i (c * s) t eq_refl (eq_sym Ht)) eq_refl).
  rewrite (mul_mod_compat (i * t) 1 (c * k) (c * k) Hi eq_refl).
  now rewrite Z.mul_1_l.
Qed.

(** What the signer computes satisfies the hypothesis on [s] above. *)
Lemma signer_equation (k e d r : Z) :
  k mod n <> 0 ->
  (((Z.invmod k n * (e + d * r)) mod n) * k) mod n = (e + d * r) mod n.
Proof.
  intros Hk. pose proof (Z.prime_ge_2 _ n_prime) as Hn.
  rewrite Z.mul_mod_idemp_l by lia.
  replace (Z.invmod k n * (e + d * r) * k) with (Z.invmod k n * k * (e + d * r))
    by ring.
  rewrite <- Z.mul_mod_idemp_l by lia.
  rewrite Z.invmod_prime by assumption. now rewrite Z.mul_1_l.
Qed.

End Modular.

(** ** Multiples of a point *)
Section Group.
Context `{CurveLaws}.

Lemma padd_infinity_r (P : point) : padd P infinity = P.
Proof. rewrite padd_comm. apply padd_infinity. Qed.

Lemma padd_inverse_unique (P Q : point) : padd P Q = infinity -> P = pneg Q.
Proof.
  intros HPQ. rewrite <- (padd_infinity_r P), <- (padd_pneg Q), padd_assoc, HPQ.
  apply padd_infinity.
Qed.

Lemma pneg_finite (P : point) : P <> infinity -> pneg P <> infinity.
Proof.
  intros HP Hneg. apply HP.
  transitivity (padd P (pneg P)); [| apply padd_pneg].
  rewrite Hneg. symmetry. apply padd_infinity_r.
Qed.

Lemma smul_0 (P : point) : ECDSA.smul 0 P = infinity.
Proof. reflexivity. Qed.

Lemma smul_1 (P : point) : ECDSA.smul 1 P = P.
Proof. reflexivity. Qed.

Lemma smul_succ (k : Z) (P : point) :
  0 <= k -> ECDSA.smul (k + 1) P = padd P (ECDSA.smul k P).
Proof.
  intros Hk. destruct k as [|p|p]; [| | lia].
  - cbn. now rewrite padd_infinity_r.
  - change (Z.pos p + 1) with (Z.pos (p + 1)). rewrite Pos.add_1_r.
    cbn [ECDSA.smul]. apply Pos.iter_op_succ, padd_assoc.
Qed.

Lemma smul_add (a b : Z) (P : point) :
  0 <= a -> 0 <= b ->
  ECDSA.smul (a + b) P = padd (ECDSA.smul a P) (ECDSA.smul b P).
Proof.
  intros Ha Hb. revert a Ha. apply natlike_ind.
  - now rewrite Z.add_0_l, smul_0, padd_infinity.
  - intros a Ha IH. unfold Z.succ.
    replace (a + 1 + b) with (a + b + 1) by ring.
    rewrite !smul_succ by lia. now rewrite IH, padd_assoc.
Qed.

Lemma smul_infinity (a : Z) : ECDSA.smul a infinity = infinity.
Proof.
  destruct (Z.le_gt_cases 0 a) as [Ha | Ha].
  - revert a Ha. apply natlike_ind; [reflexivity |].
    intros a Ha IH. unfold Z.succ. rewrite smul_succ by lia.
    now rewrite IH, padd_infinity.
  - destruct a; try lia. reflexivity.
Qed.

Lemma smul_mul (a b : Z) (P : point) :
  0 <= a -> 0 <= b -> ECDSA.smul (a * b) P = ECDSA.smul a (ECDSA.smul b P).
Proof.
  intros Ha Hb. revert a Ha. apply natlike_ind; [reflexivity |].
  intros a Ha IH. unfold Z.succ.
  replace ((a + 1) * b) with (a * b + b) by ring.
  rewrite smul_add, IH, smul_succ by nia. apply padd_comm.
Qed.

Lemma order_ge_2 : 2 <= order.
Proof. apply Z.prime_ge_2, order_prime. Qed.

Lemma smul_mod (a : Z) :
  0 <= a -> ECDSA.smul a G = ECDSA.smul (a mod order) G.
Proof.
  intros Ha. pose proof order_ge_2 as Hn.
  rewrite (Z.div_mod a order) at 1 by lia.
  assert (0 <= a / order) by (apply Z.div_pos; lia).
  assert (0 <= a mod order) by (apply Z.mod_pos_bound; lia).
  rewrite smul_add by nia.
  rewrite (Z.mul_comm order), smul_mul, G_order, smul_infinity by lia.
  apply padd_infinity.
Qed.

(** The generator has order exactly [order]. *)
Lemma smul_G_finite (k : Z) : 0 < k < order -> ECDSA.smul k G <> infinity.
Proof.
  intros Hk Hinf. apply G_finite.
  assert (Hone : (Z.invmod k order * k) mod order = 1).
  { apply Z.invmod_prime; [apply order_prime |]. rewrite Z.mod_small; lia. }
  assert (0 <= Z.invmod k order).
  { rewrite <- Z.mod_invmod. apply Z.mod_pos_bound. lia. }
  rewrite <- (smul_1 G), <- Hone, <- smul_mod by nia.
  now rewrite smul_mul, Hinf, smul_infinity by lia.
Qed.

Lemma smul_opp (k : Z) :
  0 < k < order -> ECDSA.smul (order - k) G = pneg (ECDSA.smul k G).
Proof.
  intros Hk. apply padd_inverse_unique.
  rewrite <- smul_add by lia.
  replace (order - k + k) with order by ring. apply G_order.
Qed.

End Group.

(** ** C8: a signature verifies under the public key of the signer *)
Section Signatures.
Context `{CurveLaws}.

Lemma checkSig_Some (d e k r s : Z) :
  ECDSA.checkSig d e k = Some (r, s) ->
  ECDSA.smul k G <> infinity
  /\ r = x_coord (ECDSA.smul k G) mod order /\ r <> 0
  /\ s = (Z.invmod k order * (e + d * r)) mod order /\ s <> 0.
Proof.
  unfold ECDSA.checkSig. cbv zeta.
  destruct (decide (ECDSA.smul k G = infinity)) as [| HQ]; [discriminate |].
  destruct (x_coord (ECDSA.smul k G) mod order =? 0) eqn:Hr; [discriminate |].
  lazymatch goal with
  | |- (if ?b then _ else _) = _ -> _ => destruct b eqn:Hs; [discriminate |]
  end.
  intros Heq. apply Z.eqb_neq in Hr, Hs.
  assert (r = x_coord (ECDSA.smul k G) mod order) as -> by congruence.
  split_and!; try assumption; congruence.
Qed.

Lemma generateK_Some (d e : Z) (fuel i : nat) (rs : Z * Z) :
  ECDSA.generateK d e fuel i = Some rs ->
  exists k, 0 < k < order /\ ECDSA.checkSig d e k = Some rs.
Proof.
  revert i. induction fuel as [| fuel IH]; intros i; [discriminate |].
  cbn [ECDSA.generateK].
  destruct ((0 <? rfc6979 d e i) && (rfc6979 d e i <? order)) eqn:Hk;
    [| apply IH].
  destruct (ECDSA.checkSig d e (rfc6979 d e i)) as [rs' |] eqn:Hc; [| apply IH].
  intros [= <-]. exists (rfc6979 d e i). split; [| assumption].
  apply andb_true_iff in Hk as [?%Z.ltb_lt ?%Z.ltb_lt]. lia.
Qed.

Lemma isPrivate_range (d : Buffer.t) :
  ECDSA.isPrivate d = true ->
  length d = 32%nat /\ 0 < Buffer.to_number d < order.
Proof.
  unfold ECDSA.isPrivate.
  intros [[Hl%Nat.eqb_eq ?%Z.ltb_lt]%andb_true_iff ?%Z.ltb_lt]%andb_true_iff.
  auto.
Qed.

Lemma signature_halves (r s : Z) :
  0 <= r < 2 ^ 256 -> 0 <= s < 2 ^ 256 ->
  let sig := Buffer.of_number 32 r ++ Buffer.of_number 32 s in
  length sig = 64%nat
  /\ Buffer.to_number (firstn 32 sig) = r
  /\ Buffer.to_number (skipn 32 sig) = s.
Proof.
  intros Hr Hs sig. unfold sig. split_and!.
  - now rewrite length_app, !of_number_length.
  - rewrite take_app_length' by now rewrite of_number_length.
    now apply to_number_of_number_32.
  - rewrite drop_app_length' by now rewrite of_number_length.
    now apply to_number_of_number_32.
Qed.

Lemma ecdsa_sign_verify (hash d sig : Buffer.t) :
  ECDSA.sign hash d = Ok sig ->
  ECDSA.verify hash (encode_point (ECDSA.smul (Buffer.to_number d) G)) sig
  = Ok true.
Proof.
  unfold ECDSA.sign.
  destruct (ECDSA.isScalar hash) eqn:Hhash; [| discriminate].
  destruct (ECDSA.isPrivate d) eqn:Hd; [| discriminate]. cbn [negb].
  destruct (ECDSA.generateK _ _ _ _) as [[r s] |] eqn:Hgen; [| discriminate].
  cbv zeta. intros Hsig.
  assert (sig = Buffer.of_number 32 r
                ++ Buffer.of_number 32 (if order / 2 <? s then order - s else s))
    as -> by congruence.
  clear Hsig.
  apply isPrivate_range in Hd as [_ Hd].
  apply generateK_Some in Hgen as (k & Hk & Hcheck).
  apply checkSig_Some in Hcheck as (HQ & Hr & Hr0 & Hs & Hs0).
  pose proof order_ge_2 as Hn. pose proof order_bound as Hb.
  pose proof order_prime as Hp.
  set (D := Buffer.to_number d) in *. set (e := Buffer.to_number hash) in *.
  assert (0 < r < order).
  { pose proof (Z.mod_pos_bound (x_coord (ECDSA.smul k G)) order). lia. }
  assert (0 < s < order).
  { pose proof (Z.mod_pos_bound (Z.invmod k order * (e + D * r)) order). lia. }
  set (s' := if order / 2 <? s then order - s else s).
  assert (Hs' : 0 < s' < order) by (unfold s'; destruct (_ <? _); lia).
  destruct (signature_halves r s') as (Hlen & Hfst & Hsnd); [lia | lia |].
  unfold ECDSA.verify. rewrite Hhash. cbn [negb].
  rewrite decode_encode by (apply smul_G_finite; lia).
  unfold ECDSA.isSignature. rewrite Hlen, Hfst, Hsnd. fold e.
  replace (r <? order) with true by (symmetry; apply Z.ltb_lt; lia).
  replace (s' <? order) with true by (symmetry; apply Z.ltb_lt; lia).
  replace (r <=? 0) with false by (symmetry; apply Z.leb_gt; lia).
  replace (s' <=? 0) with false by (symmetry; apply Z.leb_gt; lia).
  cbn [Nat.eqb andb negb]. cbv zeta.
  set (u1 := (e * Z.invmod s' order) mod order).
  set (u2 := (r * Z.invmod s' order) mod order).
  assert (0 <= u1 < order) by (apply Z.mod_pos_bound; lia).
  assert (0 <= u2 < order) by (apply Z.mod_pos_bound; lia).
  assert (HR : forall c, s' mod order = (c * s) mod order ->
                         (c * c) mod order = 1 mod order ->
                         padd (ECDSA.smul u1 G) (ECDSA.smul u2 (ECDSA.smul D G))
                         = ECDSA.smul ((c * k) mod order) G).
  { intros c Hc Hcc.
    rewrite <- smul_mul, <- smul_add, smul_mod by nia.
    f_equal. apply (recover_nonce order Hp k e D r s s' c); try assumption.
    - rewrite Hs. apply signer_equation; [assumption |]. rewrite Z.mod_small; lia.
    - rewrite Z.mod_small; lia. }
  assert (HRk : padd (ECDSA.smul u1 G) (ECDSA.smul u2 (ECDSA.smul D G))
                = ECDSA.smul k G
                \/ padd (ECDSA.smul u1 G) (ECDSA.smul u2 (ECDSA.smul D G))
                   = pneg (ECDSA.smul k G)).
  { unfold s' in *. destruct (order / 2 <? s).
    - right. rewrite (HR (-1)).
      + replace (-1 * k) with (- k) by ring.
        rewrite Z.mod_opp_l_nz by (rewrite ?Z.mod_small; lia).
        rewrite Z.mod_small by lia. apply smul_opp. lia.
      + replace (-1 * s) with (- s) by ring.
        rewrite Z.mod_opp_l_nz by (rewrite ?Z.mod_small; lia).
        now rewrite !Z.mod_small by lia.
      + reflexivity.
    - left. rewrite (HR 1).
      + now rewrite Z.mul_1_l, Z.mod_small by lia.
      + now rewrite Z.mul_1_l.
      + reflexivity. }
  destruct HRk as [-> | ->].
  - destruct (decide _) as [| _]; [contradiction |].
    f_equal. apply Z.eqb_eq. now rewrite Hr.
  - destruct (decide _) as [Hinf | _]; [now apply pneg_finite in Hinf |].
    f_equal. apply Z.eqb_eq. now rewrite x_coord_pneg, Hr.
Qed.

End Signatures.

(** ** SHA-256 digests are 32 bytes long *)

Lemma round_length (st : list Z) (kw : Z * Z) :
  length st = 8%nat -> length (SHA256.round st kw) = 8%nat.
Proof.
  intros Hl. do 9 (destruct st as [| ? st]; try discriminate). reflexivity.
Qed.

Lemma rounds_length (kws : list (Z * Z)) (st : list Z) :
  length st = 8%nat -> length (fold_left SHA256.round kws st) = 8%nat.
Proof.
  revert st. induction kws as [| kw kws IH]; intros st Hl; [assumption |].
  cbn [fold_left]. apply IH, round_length, Hl.
Qed.

Lemma compress_length (h block : list Z) :
  length h = 8%nat -> length (SHA256.compress h block) = 8%nat.
Proof.
  intros Hl. unfold SHA256.compress.
  rewrite length_map, length_combine, rounds_length by assumption. lia.
Qed.

Lemma digest_length (msg : list byte) : length (SHA256.digest msg) = 32%nat.
Proof.
  unfold SHA256.digest. cbv zeta.
  set (bs := SHA256.blocks _ _).
  assert (Hh : length (fold_left SHA256.compress bs SHA256.H0) = 8%nat).
  { generalize SHA256.H0 (eq_refl : length SHA256.H0 = 8%nat). clear.
    induction bs as [| b bs IH]; intros h Hl; [assumption |].
    cbn [fold_left]. apply IH, compress_length, Hl. }
  revert Hh. generalize (fold_left SHA256.compress bs SHA256.H0). clear.
  intros h Hl. do 9 (destruct h as [| ? h]; try discriminate).
  cbn [map concat]. now rewrite !length_app, !of_number_length.
Qed.

(** ** Signing and verifying in the service *)
Section Signing.
Context `{CurveLaws} `{AddressCodec}.
Variable env : Env.
Import CryptoService.

Lemma fromPrivateKey_Ok (d : Buffer.t) (kp : ECPair.t) :
  ECPair.fromPrivateKey d = Ok kp ->
  ECDSA.isPrivate d = true
  /\ ECPair.privateKey kp = Some d
  /\ ECPair.publicKey kp = encode_point (ECDSA.smul (Buffer.to_number d) G).
Proof.
  unfold ECPair.fromPrivateKey.
  destruct (ECDSA.isPrivate d); [| discriminate]. now intros [= <-].
Qed.

(** C8. For every private key and every transaction payload, what
    signTransaction returns verifies: verifySignature answers true for the
    returned signature, the same payload and the public key of that private
    key, which is the one deriveKeyPair derives and the one signTransaction
    returns. Proved for every curve that satisfies the group laws. *)
Theorem sign_then_verify (privateKeyHex : string) (data : TransactionData)
    (signed : Signed) :
  signTransaction privateKeyHex data = Ok signed ->
  verifySignature (signed_publicKey signed) (signature signed) data = true
  /\ exists derived,
      deriveKeyPair env privateKeyHex = Ok derived
      /\ derived_publicKey derived = signed_publicKey signed.
Proof.
  unfold signTransaction, deriveKeyPair.
  destruct (ECPair.fromPrivateKey (Buffer.from_hex privateKeyHex))
    as [kp | err] eqn:Hkp; [| discriminate].
  cbn [mbind Result_bind rethrow].
  destruct (ECPair.sign kp _) as [sig | err] eqn:Hsig; [| discriminate].
  cbn [mbind Result_bind mret Result_ret rethrow]. intros [= <-].
  cbn [signed_publicKey signature].
  split; [| eexists; split; reflexivity].
  apply fromPrivateKey_Ok in Hkp as (_ & Hd & Hpub).
  unfold ECPair.sign in Hsig. rewrite Hd in Hsig.
  apply ecdsa_sign_verify in Hsig.
  unfold verifySignature, ECPair.fromPublicKey, ECPair.verify.
  rewrite !from_hex_to_hex, Hpub.
  destruct (decode_point _) as [Q |] eqn:HQ.
  - cbn [mbind Result_bind ECPair.publicKey]. now rewrite Hsig.
  - unfold ECDSA.verify in Hsig. rewrite HQ in Hsig.
    now destruct (negb _) in Hsig.
Qed.

(** Signing succeeds for every valid key and every payload for which the
    search for a nonce does. *)
Lemma signTransaction_returns (privateKeyHex : string) (data : TransactionData) :
  ECDSA.isPrivate (Buffer.from_hex privateKeyHex) = true ->
  is_Some (ECDSA.generateK
             (Buffer.to_number (Buffer.from_hex privateKeyHex))
             (Buffer.to_number
                (SHA256.digest (Buffer.of_string (stringify data))))
             retry_bound 0) ->
  exists signed, signTransaction privateKeyHex data = Ok signed.
Proof.
  intros Hd [[r s] Hk]. unfold signTransaction, ECPair.fromPrivateKey.
  rewrite Hd. cbn [mbind Result_bind ECPair.sign ECPair.privateKey].
  unfold ECDSA.sign, ECDSA.isScalar.
  rewrite digest_length, Hd, Hk. cbn [Nat.eqb negb].
  eexists. reflexivity.
Qed.

End Signing.

(** ** The scenario *)

Example alice_wallet_stored :
  wallets Scenario.start !! Scenario.alice = Some Scenario.alice_wallet.
Proof. vm_compute. reflexivity. Qed.



(** The same send writes a send record and a receive record. *)
Lemma send_records_born_confirmed_witness :
  exists written,
    transactions (snd Scenario.send_to_bob)
    = transactions Scenario.start ++ written
    /\ Forall TransactionService.bornConfirmed written.
Proof.
  assert (Hrun : TransactionService.createTransaction Tiny.env Scenario.oracle
                   (Scenario.from_alice Scenario.bob_address 70000)
                   Scenario.start
                 = (fst Scenario.send_to_bob, snd Scenario.send_to_bob))
    by (vm_compute; reflexivity).
  destruct (send_records_born_confirmed Tiny.env Scenario.oracle _ _ _ _ Hrun)
    as (written & Ht & Hall & _).
  exists written. auto.
Defined.



(** C9, the claim as stated fails: the receive record mirrored into Bob's
    wallet has the id of the send record followed by "-receive", which is
    not the hexadecimal form of 32 bytes. *)
Lemma receive_id_counterexample :
  TransactionService.createTransaction Tiny.env Scenario.oracle
    (Scenario.from_alice Scenario.bob_address 70000) Scenario.start
  = Scenario.send_to_bob
  /\ exists tx rx,
      transactions (snd Scenario.send_to_bob)
      = transactions Scenario.start ++ [tx; rx]
      /\ Transaction.type rx = receive
      /\ Transaction.txId tx
         = "0000000000000000000000000000000000000000000000000000000000000fa7"
      /\ Transaction.txId rx
         = "0000000000000000000000000000000000000000000000000000000000000fa7-receive"
      /\ forall b : Buffer.t,
          length b = 32%nat -> Transaction.txId rx <> Buffer.to_hex b.
Proof.
  split; [vm_compute; reflexivity |].
  eexists _, _. split_and!; [vm_compute; reflexivity | reflexivity ..|].
  intros b Hb Heq. apply (f_equal String.length) in Heq.
  rewrite to_hex_length, Hb in Heq. vm_compute in Heq. discriminate.
Qed.

(** The ids of Alice's send to Bob. *)
Lemma transaction_ids_witness :
  unique_txIds (transactions (snd Scenario.send_to_bob)).
Proof.
  assert (Hrun : TransactionService.createTransaction Tiny.env Scenario.oracle
                   (Scenario.from_alice Scenario.bob_address 70000)
                   Scenario.start
                 = (fst Scenario.send_to_bob, snd Scenario.send_to_bob))
    by (vm_compute; reflexivity).
  apply (transaction_ids Tiny.env Scenario.oracle _ _ _ _
           (NoDup_nil_2 : unique_txIds (transactions Scenario.start)) Hrun).
Defined.





(** Bob's key, encrypted under the secret of the small platform. *)
Lemma decrypt_encrypt_roundtrip_witness :
  exists e w',
    CryptoService.encryptPrivateKey Tiny.env Scenario.oracle Scenario.bob_key
      Tiny.empty = (Ok e, w')
    /\ CryptoService.decryptPrivateKey Tiny.env
         (Some (CryptoService.encryptedData e)) (Some (CryptoService.iv e))
         (Some (CryptoService.authTag e))
       = Ok Scenario.bob_key.
Proof.
  eexists _, _.
  assert (Hrun : CryptoService.encryptPrivateKey Tiny.env Scenario.oracle
                   Scenario.bob_key Tiny.empty
                 = (Ok _, _)) by (vm_compute; reflexivity).
  split; [exact Hrun |].
  exact (decrypt_encrypt_roundtrip Tiny.env Scenario.oracle _ _ _ _ Hrun).
Defined.

(** The small curve is a group of prime order 7. *)
Lemma Tiny_curve_laws : @CurveLaws Tiny.curve.
Proof.
  split.
  - intros [] [] []; reflexivity.
  - intros [] []; reflexivity.
  - intros []; reflexivity.
  - intros []; reflexivity.
  - split; [reflexivity |]. intros m Hm [q Hq]. cbn in Hm, Hq.
    assert (m = 2 \/ m = 3 \/ m = 4 \/ m = 5 \/ m = 6) as Hcases by lia.
    destruct Hcases as [-> | [-> | [-> | [-> | ->]]]]; lia.
  - reflexivity.
  - discriminate.
  - reflexivity.
  - intros []; reflexivity.
  - intros [] HP; solve [contradiction | vm_compute; reflexivity].
Qed.

(** Bob's key signs a payload on the small curve. *)
Lemma sign_then_verify_witness :
  exists signed,
    CryptoService.signTransaction Scenario.bob_key Scenario.payload = Ok signed
    /\ CryptoService.verifySignature (CryptoService.signed_publicKey signed)
         (CryptoService.signature signed) Scenario.payload = true.
Proof.
  eexists.
  assert (Hrun : CryptoService.signTransaction Scenario.bob_key Scenario.payload
                 = Ok _) by (vm_compute; reflexivity).
  split; [exact Hrun |].
  exact (proj1 (@sign_then_verify Tiny.curve Tiny_curve_laws Tiny.codec Tiny.env
                  _ _ _ Hrun)).
Defined.

